(** * The KeystoneJS connector for the LoopBack datasource juggler

    A shallow embedding of [index.js]: the connector translates the
    juggler's CRUD contract into calls on the model registry of a KeystoneJS
    instance.  The persistence engine (KeystoneJS lists, Mongoose models and
    queries) and the juggler's [Connector] base class are external; they are
    the fields of the records [Engine] and [Framework] below, and every
    statement about the connector holds for all of them. *)

From stdpp Require Import gmap strings list pretty.
From Stdlib Require Import ZArith Ascii String Lia.

#[local] Set Warnings "-register-all".

Local Open Scope Z_scope.
Local Open Scope string_scope.
Local Open Scope list_scope.

(** ** JavaScript values *)

Module JS.

(** The values that travel through the connector: model data, identifiers,
    filter descriptors, engine errors.  Numbers are the integers; objects and
    arrays are taken by value (so two sub-filters of a descriptor are distinct
    arrays); [VError] is an [Error] object with its name and message. *)
Inductive value : Type :=
| VUndefined
| VNull
| VBool (b : bool)
| VNum (n : Z)
| VStr (s : string)
| VArr (items : list value)
| VObj (fields : list (string * value))
| VError (name message : string).

(** What a [throw] carries: the name and message of an [Error] object. *)
Record exn : Type := Exn { exn_name : string; exn_message : string }.

Definition error_value (e : exn) : value := VError (exn_name e) (exn_message e).

Definition TypeError (message : string) : exn := Exn "TypeError" message.

(** ToBoolean: what [if (v)], [!v] and [a && b] test. *)
Definition truthy (v : value) : bool :=
  match v with
  | VUndefined | VNull => false
  | VBool b => b
  | VNum n => negb (n =? 0)%Z
  | VStr s => negb (String.eqb s "")
  | VArr _ | VObj _ | VError _ _ => true
  end.

(** [v === null || v === undefined] *)
Definition nullish (v : value) : bool :=
  match v with
  | VUndefined | VNull => true
  | _ => false
  end.

(** [Array.prototype.join]: separator between the items, nothing around *)
Fixpoint join (sep : string) (parts : list string) : string :=
  match parts with
  | [] => ""
  | [p] => p
  | p :: rest => p +:+ sep +:+ join sep rest
  end.

(** [Error.prototype.toString] *)
Definition error_to_string (name message : string) : string :=
  if String.eqb message "" then name
  else if String.eqb name "" then message
  else name +:+ ": " +:+ message.

(** ToString, as string concatenation [v + '...'] applies it.  An array is
    its items joined by commas, [null] and [undefined] items left empty. *)
Fixpoint to_string (v : value) : string :=
  match v with
  | VUndefined => "undefined"
  | VNull => "null"
  | VBool true => "true"
  | VBool false => "false"
  | VNum n => pretty n
  | VStr s => s
  | VArr items =>
      join "," (List.map (fun item => if nullish item then "" else to_string item) items)
  | VObj _ => "[object Object]"
  | VError name message => error_to_string name message
  end.

(** Property read [o.key]; reading off a primitive without that property,
    or a missing key, gives [undefined]. *)
Fixpoint lookup_field (key : string) (fields : list (string * value)) : value :=
  match fields with
  | [] => VUndefined
  | (k, v) :: rest => if String.eqb k key then v else lookup_field key rest
  end.

Definition get (key : string) (v : value) : value :=
  match v with
  | VObj fields => lookup_field key fields
  | _ => VUndefined
  end.

(** [delete o.key] *)
Definition delete_field (key : string) (v : value) : value :=
  match v with
  | VObj fields => VObj (List.filter (fun kv => negb (String.eqb (fst kv) key)) fields)
  | _ => v
  end.

(** [a.shift()]: removes and returns the first item of an array, [undefined]
    from an empty one; the second component is what stays in the array.  On
    anything that is not an array the call raises. *)
Definition shift (v : value) : exn + (value * list value) :=
  match v with
  | VArr [] => inr (VUndefined, [])
  | VArr (x :: rest) => inr (x, rest)
  | VUndefined | VNull => inl (TypeError ("Cannot read property 'shift' of " +:+ to_string v))
  | _ => inl (TypeError "subFilter.shift is not a function")
  end.

End JS.
Import JS.

(** ** The persistence engine and the juggler's base class *)

(** What the connector reaches through [settings.keystone].  [lists] is
    [keystone.lists[name].model] and [direct] is [keystone[name].model]:
    the two registry paths the source uses.  An engine operation that takes a
    completion callback is the function from the stored state to what it
    hands to the callback and the state it leaves. *)
Record Engine : Type := {
  db : Type;
  handle : Type;
  query : Type;
  lists : gmap string handle;
  direct : gmap string handle;
  (** [new M(data)] then [obj.save(cb)]: the [err] given to [cb] *)
  model_save : handle -> value -> db -> value * db;
  (** [M.findById(id, cb)]: the [(err, data)] given to [cb] *)
  model_findById : handle -> value -> db -> (value * value) * db;
  (** [M.findById(id).remove(cb)]: the [(err, result)] given to [cb] *)
  model_remove : handle -> value -> db -> (value * value) * db;
  (** [M.find()]: the base query handle *)
  model_find : handle -> query;
  (** [q[cmd].apply(q, args)] for a chainable method: the next handle, or
      the exception the method raises *)
  query_apply : string -> list value -> query -> exn + query;
  (** [q.exec(cb)]: the [(err, data)] given to [cb], [data] an array *)
  query_exec : query -> db -> (value * list value) * db
}.

(** How an operation of the connector ends: its completion callback is
    invoked with [(err, result)] (a missing argument is [undefined]), or an
    exception escapes. *)
Inductive completion : Type :=
| Callback (err result : value)
| Throws (e : exn).

(** What the connector takes from its base class [Connector] and from the
    method the source only has in a comment, [updateAttributes]. *)
Record Framework (E : Engine) : Type := {
  idName : string -> string;
  getIdValue : string -> value -> value;
  (** [setIdValue(model, data, id)]: [data] after the call *)
  setIdValue : string -> value -> value -> value;
  updateAttributes : string -> value -> value -> db E -> completion * db E
}.
Arguments idName {E}.
Arguments getIdValue {E}.
Arguments setIdValue {E}.
Arguments updateAttributes {E}.

(** The two registry paths of the source. *)
Inductive registry_path : Type := ViaLists | ViaKeystone.

(** The calls the connector makes on the engine and on its base class, in
    the order it makes them.  A name in an engine call is the registry key
    used; a model in a base-class call is the name as the caller gave it. *)
Inductive event (E : Engine) : Type :=
| NewSave (path : registry_path) (name : string) (data : value)
| FindById (name : string) (id : value)
| FindByIdRemove (name : string) (id : value)
| Find (name : string)
| Apply (q : query E) (cmd : string) (args : list value)
| Exec (q : query E)
| UpdateAttributes (model : string) (id data : value)
| SetIdValue (model : string) (data id : value).
Arguments NewSave {E}.
Arguments FindById {E}.
Arguments FindByIdRemove {E}.
Arguments Find {E}.
Arguments Apply {E}.
Arguments Exec {E}.
Arguments UpdateAttributes {E}.
Arguments SetIdValue {E}.

(** ** Computations that call the engine *)

(** A computation reads and changes the engine's state and logs its calls. *)
Definition Eff (E : Engine) (A : Type) : Type := db E -> list (event E) * db E * A.

Definition ret {E A} (a : A) : Eff E A := fun d => ([], d, a).

Definition bind {E A B} (m : Eff E A) (k : A -> Eff E B) : Eff E B :=
  fun d =>
    let '(evs1, d1, a) := m d in
    let '(evs2, d2, b) := k a d1 in
    (evs1 ++ evs2, d2, b).

(** One engine call: the logged event and the engine's own function. *)
Definition call {E R} (ev : event E) (f : db E -> R * db E) : Eff E R :=
  fun d => let '(r, d') := f d in ([ev], d', r).

(** Calls that do not touch the stored state. *)
Definition emit {E} (evs : list (event E)) : Eff E unit := fun d => (evs, d, tt).

Definition note {E} (ev : event E) : Eff E unit := emit [ev].

Notation "x <- m ;; k" := (bind m (fun x => k))
  (at level 100, m at next level, right associativity).

Definition events {E A} (r : list (event E) * db E * A) : list (event E) := fst (fst r).
Definition final_db {E A} (r : list (event E) * db E * A) : db E := snd (fst r).
Definition outcome {E A} (r : list (event E) * db E * A) : A := snd r.

(** ** The connector *)

(** The settings of the data source that the connector reads; a setting
    that is absent is [None], or [undefined] for the flag. *)
Record Settings : Type := {
  settings_keystone : option Engine;
  settings_debug : value;
  settings_modelPrefix : option string
}.

(** The connector: what the constructor keeps of the settings, the engine
    and the prefix.  The [debug] flag is not kept: it is off in every
    connector there is, see [new_KeyStoneJS], so no operation traces. *)
Record KeyStoneJS : Type := {
  keystone : Engine;
  modelPrefix : option string
}.

(** [if (this.modelPrefix) new RegExp('^' + this.modelPrefix)]: whether the
    constructor gets its pattern.  [RegExp_compiles] is the runtime's pattern
    compiler, [true] on a source that is a regular expression; a prefix that
    is absent or empty compiles nothing. *)
Definition prefix_compiles (RegExp_compiles : string -> bool) (settings : Settings) : bool :=
  match settings_modelPrefix settings with
  | Some p => if truthy (VStr p) then RegExp_compiles ("^" +:+ p) else true
  | None => true
  end.

(** [new KeyStoneJS(settings, dataSource)].  The file never defines the
    function [debug] that the tracing calls, so with the flag on the first
    trace, in the constructor, raises.  After it the pattern of the prefix is
    compiled, and a prefix that is no regular expression raises there. *)
Definition new_KeyStoneJS (RegExp_compiles : string -> bool) (settings : Settings)
    (engine : Engine) : exn + KeyStoneJS :=
  if truthy (settings_debug settings)
  then inl (Exn "ReferenceError" "debug is not defined")
  else if prefix_compiles RegExp_compiles settings
  then inr {| keystone := engine; modelPrefix := settings_modelPrefix settings |}
  else inl (Exn "SyntaxError" "Invalid regular expression").

(** [exports.initialize]: without [settings.keystone] no connector is made. *)
Definition initialize (RegExp_compiles : string -> bool) (settings : Settings)
  : exn + option KeyStoneJS :=
  match settings_keystone settings with
  | None => inr None
  | Some engine =>
      match new_KeyStoneJS RegExp_compiles settings engine with
      | inl ex => inl ex
      | inr connector => inr (Some connector)
      end
  end.

(** a whitelist for mongoose filter methods *)
Definition filterWhitelist : list string := ["where"; "populate"; "sort"; "limit"].

(** [_.contains(filterWhitelist, cmd)]: [cmd] is identical to a member of the
    list; the result carries the member, a string. *)
Definition contains (allowed : list string) (cmd : value) : option string :=
  match cmd with
  | VStr c => if existsb (String.eqb c) allowed then Some c else None
  | _ => None
  end.

(** Characters that are operators in a regular expression. *)
Definition regex_special (c : ascii) : bool :=
  existsb (Ascii.eqb c) (list_ascii_of_string "\^$.|?*+()[]{}").

(** A pattern without operators: it matches its own text and nothing else. *)
Fixpoint regex_literal (p : string) : bool :=
  match p with
  | EmptyString => true
  | String c rest => negb (regex_special c) && regex_literal rest
  end.

Fixpoint drop_chars (n : nat) (s : string) : string :=
  match n, s with
  | O, _ => s
  | S _, EmptyString => EmptyString
  | S n', String _ rest => drop_chars n' rest
  end.

(** [modelName.replace(new RegExp('^' + modelPrefix), '')] for a prefix that
    is a literal pattern ([regex_literal]): the prefix is cut off the front
    of a name that starts with it, any other name is left alone.  A prefix
    with regular-expression operators is outside this definition. *)
Definition removeModelPrefix (modelPrefix modelName : string) : string :=
  if String.prefix modelPrefix modelName
  then drop_chars (String.length modelPrefix) modelName
  else modelName.

(** The filter argument of [all]: absent, or an array of sub-filters. *)
Inductive filter_arg : Type :=
| FilterNull
| FilterUndefined
| FilterArr (subFilters : list value).

(** The variables the callback given to [_.each] closes over. *)
Record chain_state (E : Engine) : Type := ChainState {
  cur_query : query E;
  cur_err : value
}.
Arguments ChainState {E}.
Arguments cur_query {E}.
Arguments cur_err {E}.

Definition unsupported (cmd : value) : string :=
  to_string cmd +:+ " is not a supported filter command".

Section Connector.

Context (self : KeyStoneJS) (F : Framework (keystone self)).

Let E : Engine := keystone self.

(** [if (this.modelPrefix) model = this.removeModelPrefix(model)] *)
Definition registry_key (model : string) : string :=
  match modelPrefix self with
  | Some p => if truthy (VStr p) then removeModelPrefix p model else model
  | None => model
  end.

(** Reading [.model] off a registry entry that is not there raises. *)
Definition no_such_model : exn := TypeError "Cannot read property 'model' of undefined".

Definition fromDatabase (model : string) (data : value) : value :=
  if negb (truthy data) then VNull else get "_doc" data.

Definition create (model : string) (data : value) : Eff E completion :=
  let model := registry_key model in
  match lists E !! model with
  | None => ret (Throws no_such_model)
  | Some M =>
      err <- call (NewSave ViaLists model data) (model_save E M data) ;;
      ret (Callback err VUndefined)
  end.

Definition save (model : string) (data : value) : Eff E completion :=
  let model := registry_key model in
  match direct E !! model with
  | None => ret (Throws no_such_model)
  | Some M =>
      err <- call (NewSave ViaKeystone model data) (model_save E M data) ;;
      ret (Callback err VUndefined)
  end.

Definition exists_ (model : string) (id : value) : Eff E completion :=
  let model := registry_key model in
  match lists E !! model with
  | None => ret (Throws no_such_model)
  | Some M =>
      r <- call (FindById model id) (model_findById E M id) ;;
      let '(err, data) := r in
      ret (Callback err (VBool (negb (truthy err) && truthy data)))
  end.

Definition find (model : string) (id : value) : Eff E completion :=
  let model := registry_key model in
  match lists E !! model with
  | None => ret (Throws no_such_model)
  | Some M =>
      r <- call (FindById model id) (model_findById E M id) ;;
      let '(err, data) := r in
      if truthy err then ret (Callback err VUndefined)
      else ret (Callback err (fromDatabase model data))
  end.

Definition updateOrCreate (model : string) (data : value) : Eff E completion :=
  let idValue := getIdValue F model data in
  let idName := idName F model in
  if nullish idValue then create model data
  else
    found <- find model idValue ;;
    match found with
    | Throws ex => ret (Throws ex)
    | Callback err inst =>
        if truthy err then ret (Callback err VUndefined)
        else if truthy inst then
          call (UpdateAttributes model idValue data) (updateAttributes F model idValue data)
        else
          created <- create model data ;;
          match created with
          | Throws ex => ret (Throws ex)
          | Callback err id =>
              if truthy err then ret (Callback err VUndefined)
              else if truthy id then
                _ <- note (SetIdValue model data id) ;;
                let data := setIdValue F model data id in
                let data :=
                  if truthy data && negb (String.eqb idName "_id")
                  then delete_field "_id" data else data in
                ret (Callback VNull data)
              else ret (Callback VNull VNull)
          end
    end.

Definition destroy (model : string) (id : value) : Eff E completion :=
  let model := registry_key model in
  match lists E !! model with
  | None => ret (Throws no_such_model)
  | Some M =>
      r <- call (FindByIdRemove model id) (model_remove E M id) ;;
      let '(err, result) := r in
      ret (Callback err result)
  end.

(** The callback given to [_.each], on one sub-filter: the sub-filter as it
    is left, the engine calls made, the variables after it, and the exception
    if one is raised. *)
Definition each_subFilter (st : chain_state E) (subFilter : value)
  : value * list (event E) * chain_state E * option exn :=
  if negb (truthy (cur_err st)) then
    match shift subFilter with
    | inl ex => (subFilter, [], st, Some ex)
    | inr (cmd, rest) =>
        match contains filterWhitelist cmd with
        | None => (VArr rest, [], ChainState (cur_query st) (VStr (unsupported cmd)), None)
        | Some c =>
            match query_apply E c rest (cur_query st) with
            | inl ex => (VArr rest, [Apply (cur_query st) c rest], st, Some ex)
            | inr q => (VArr rest, [Apply (cur_query st) c rest], ChainState q (cur_err st), None)
            end
        end
    end
  else (subFilter, [], st, None).

(** [_.each(filter, ...)]: the sub-filters in order; an exception ends it. *)
Fixpoint each (subFilters : list value) (st : chain_state E)
  : list value * list (event E) * chain_state E * option exn :=
  match subFilters with
  | [] => ([], [], st, None)
  | subFilter :: rest =>
      match each_subFilter st subFilter with
      | (subFilter', evs, st', Some ex) => (subFilter' :: rest, evs, st', Some ex)
      | (subFilter', evs, st', None) =>
          let '(rest', evs', st'', raised) := each rest st' in
          (subFilter' :: rest', evs ++ evs', st'', raised)
      end
  end.

(** The callback given to [query.exec]: an error is handed on, the
    documents are unwrapped one by one. *)
Definition exec_callback (model : string) (err : value) (data : list value) : completion :=
  if truthy err then Callback err VUndefined
  else Callback VNull (VArr (List.map (fromDatabase model) data)).

Definition exec_query (model : string) (q : query E) : Eff E completion :=
  r <- call (Exec q) (query_exec E q) ;;
  let '(err, data) := r in
  ret (exec_callback model err data).

(** [all]: with the completion, the caller's filter as the call leaves it. *)
Definition all (model : string) (filter : filter_arg) : Eff E (completion * filter_arg) :=
  let model := registry_key model in
  match lists E !! model with
  | None => ret (Throws no_such_model, filter)
  | Some M =>
      _ <- note (Find model) ;;
      let query := model_find E M in
      match filter with
      | FilterArr (first :: others) =>
          let '(subFilters', evs, st, raised) :=
            each (first :: others) (ChainState query VUndefined) in
          let err := match raised with Some ex => error_value ex | None => cur_err st end in
          _ <- emit evs ;;
          c <- (if truthy err then ret (Callback err VUndefined)
                else exec_query model (cur_query st)) ;;
          ret (c, FilterArr subFilters')
      | _ =>
          c <- exec_query model query ;;
          ret (c, filter)
      end
  end.

End Connector.

(** ** The words of the statements *)

(** A filter step is a command with its arguments; its sub-filter is the
    array that leads with the command. *)
Definition step : Type := string * list value.

Definition subFilter_of (s : step) : value := VArr (VStr (fst s) :: snd s).

(** What is left of that sub-filter once the command is shifted off. *)
Definition shifted (s : step) : value := VArr (snd s).

Definition allowed (s : step) : Prop := fst s ∈ filterWhitelist.

(** The leading command of a sub-filter that is an array, as [shift] gives
    it, and the sub-filters [all] rejects: arrays whose leading command is
    not on the whitelist. *)
Definition leading (items : list value) : value := hd VUndefined items.

Definition rejected (subFilter : value) : Prop :=
  exists items, subFilter = VArr items /\ contains filterWhitelist (leading items) = None.

Section Chaining.

Context (E : Engine).

(** The handle after the steps are chained onto [q] one after the other,
    or the first exception on the way. *)
Fixpoint chained (steps : list step) (q : query E) : exn + query E :=
  match steps with
  | [] => inr q
  | (cmd, args) :: rest =>
      match query_apply E cmd args q with
      | inl ex => inl ex
      | inr q' => chained rest q'
      end
  end.

(** The calls of that chaining: each step applied to the handle the step
    before it returned. *)
Fixpoint applications (steps : list step) (q : query E) : list (event E) :=
  match steps with
  | [] => []
  | (cmd, args) :: rest =>
      Apply q cmd args ::
      match query_apply E cmd args q with
      | inl _ => []
      | inr q' => applications rest q'
      end
  end.

End Chaining.
Arguments chained {E}.
Arguments applications {E}.

(** A completion with the error text of a rejected command and no result. *)
Definition names_unsupported (c : completion) : Prop :=
  exists cmd : string,
    c = Callback (VStr (cmd +:+ " is not a supported filter command")) VUndefined.

(** [err] is [undefined] until a command is rejected, and then it is the
    text that names the command. *)
Definition unset_or_unsupported (err : value) : Prop :=
  err = VUndefined \/ exists cmd, err = VStr (unsupported cmd).

(** A call that applies a command of the whitelist to a query handle. *)
Definition is_application {E : Engine} (ev : event E) : Prop :=
  exists q cmd args, ev = Apply q cmd args /\ cmd ∈ filterWhitelist.

(** A sub-filter after [all] against the same one before: as it was, or
    without its first element. *)
Definition kept_or_shifted (before after : value) : Prop :=
  after = before \/ exists cmd rest, before = VArr (cmd :: rest) /\ after = VArr rest.

(** The base class treats two model names alike. *)
Definition same_to_framework {E : Engine} (F : Framework E) (m1 m2 : string) : Prop :=
  idName F m1 = idName F m2
  /\ (forall data, getIdValue F m1 data = getIdValue F m2 data)
  /\ (forall data id, setIdValue F m1 data id = setIdValue F m2 data id)
  /\ (forall id data d, updateAttributes F m1 id data d = updateAttributes F m2 id data d).

(** ** An engine in memory

    A small engine to run the connector on: collections of documents in a
    list, queries that record their chain.  Like Mongoose's, its [where]
    raises a [TypeError] on a path that is neither a string nor an object,
    and a document found comes wrapped, its data under [_doc]. *)

Module Mem.

Record mquery : Type := MQuery {
  collection : string;
  chain : list (string * list value)
}.

Definition store : Type := list (string * value).

Definition same_id (id doc : value) : bool :=
  String.eqb (to_string (get "_id" doc)) (to_string id).

Definition in_collection (c : string) (id : value) (entry : string * value) : bool :=
  String.eqb (fst entry) c && same_id id (snd entry).

Definition wrap (doc : value) : value := VObj [("_doc", doc)].

Definition mem_save (c : string) (data : value) (d : store) : value * store :=
  match data with
  | VObj _ => (VNull, d ++ [(c, data)])
  | _ => (VError "ValidationError" "document must be an object", d)
  end.

Definition mem_findById (c : string) (id : value) (d : store) : (value * value) * store :=
  match List.find (in_collection c id) d with
  | Some (_, doc) => ((VNull, wrap doc), d)
  | None => ((VNull, VNull), d)
  end.

Definition mem_remove (c : string) (id : value) (d : store) : (value * value) * store :=
  let gone := List.filter (in_collection c id) d in
  ((VNull, VNum (Z.of_nat (List.length gone))),
   List.filter (fun entry => negb (in_collection c id entry)) d).

Definition mem_apply (cmd : string) (args : list value) (q : mquery) : exn + mquery :=
  let recorded := MQuery (collection q) (chain q ++ [(cmd, args)]) in
  if String.eqb cmd "where" then
    match args with
    | [] => inr q
    | VStr _ :: _ | VObj _ :: _ => inr recorded
    | _ => inl (TypeError "path must be a string or object")
    end
  else inr recorded.

(** A document passes [where(conditions)] when it has each field of the
    conditions with the same text. *)
Definition matches (doc : value) (link : string * list value) : bool :=
  match link with
  | (cmd, VObj conditions :: _) =>
      negb (String.eqb cmd "where")
      || forallb (fun kv => String.eqb (to_string (get (fst kv) doc)) (to_string (snd kv)))
           conditions
  | _ => true
  end.

Definition limited (docs : list value) (link : string * list value) : list value :=
  match link with
  | (cmd, VNum n :: _) => if String.eqb cmd "limit" then firstn (Z.to_nat n) docs else docs
  | _ => docs
  end.

Definition mem_exec (q : mquery) (d : store) : (value * list value) * store :=
  let docs := List.map snd (List.filter (fun entry => String.eqb (fst entry) (collection q)) d) in
  let kept := List.filter (fun doc => forallb (matches doc) (chain q)) docs in
  ((VNull, List.map wrap (fold_left limited (chain q) kept)), d).

(** Two lists, [User] and [ksUser], and one model reachable on the second
    registry path. *)
Definition engine : Engine := {|
  db := store;
  handle := string;
  query := mquery;
  lists := {[ "User" := "users"; "ksUser" := "ksusers" ]};
  direct := {[ "User" := "users" ]};
  model_save := mem_save;
  model_findById := mem_findById;
  model_remove := mem_remove;
  model_find := fun c => MQuery c [];
  query_apply := mem_apply;
  query_exec := mem_exec
|}.

(** The base class: the identifier of [ksUser] is its [key], that of any
    other model its [id]; updating replaces nothing and hands the data back. *)
Definition mem_idName (model : string) : string :=
  if String.eqb model "ksUser" then "key" else "id".

Definition framework : Framework engine := {|
  idName := mem_idName;
  getIdValue := fun model data => get (mem_idName model) data;
  setIdValue := fun model data id =>
    match data with
    | VObj fields => VObj (fields ++ [(mem_idName model, id)])
    | _ => data
    end;
  updateAttributes := fun model id data d => (Callback VNull data, d)
|}.

Definition plain : KeyStoneJS := {| keystone := engine; modelPrefix := None |}.
Definition prefixed : KeyStoneJS := {| keystone := engine; modelPrefix := Some "ks" |}.

Definition ann : value := VObj [("_id", VNum 1); ("name", VStr "Ann"); ("a", VNum 1)].
Definition bob : value := VObj [("_id", VNum 2); ("name", VStr "Bob"); ("a", VNum 1)].
Definition cy : value := VObj [("_id", VNum 3); ("name", VStr "Cy"); ("a", VNum 2)].

Definition users : store := [("users", ann); ("users", bob); ("users", cy)].

End Mem.

(** ** Engines that fail

    [Down.engine] answers every call with an error; [ReadOnly.engine] reads
    as the engine in memory does and refuses every save. *)

Module Down.

Definition lost : value := VError "MongoError" "connection lost".

Definition engine : Engine := {|
  db := unit;
  handle := string;
  query := string;
  lists := {[ "User" := "users" ]};
  direct := {[ "User" := "users" ]};
  model_save := fun _ _ d => (lost, d);
  model_findById := fun _ _ d => ((lost, VUndefined), d);
  model_remove := fun _ _ d => ((lost, VUndefined), d);
  model_find := fun c => c;
  query_apply := fun _ _ q => inr q;
  query_exec := fun _ d => ((lost, []), d)
|}.

Definition framework : Framework engine := {|
  idName := fun _ => "id";
  getIdValue := fun _ data => get "id" data;
  setIdValue := fun _ data _ => data;
  updateAttributes := fun _ _ _ d => (Callback lost VUndefined, d)
|}.

Definition connector : KeyStoneJS := {| keystone := engine; modelPrefix := None |}.

End Down.

Module ReadOnly.

Definition refused : value := VError "MongoError" "not master".

Definition engine : Engine := {|
  db := Mem.store;
  handle := string;
  query := Mem.mquery;
  lists := {[ "User" := "users" ]};
  direct := {[ "User" := "users" ]};
  model_save := fun _ _ d => (refused, d);
  model_findById := Mem.mem_findById;
  model_remove := Mem.mem_remove;
  model_find := fun c => Mem.MQuery c [];
  query_apply := Mem.mem_apply;
  query_exec := Mem.mem_exec
|}.

Definition framework : Framework engine := {|
  idName := fun _ => "id";
  getIdValue := fun _ data => get "id" data;
  setIdValue := fun _ data _ => data;
  updateAttributes := fun _ _ data d => (Callback VNull data, d)
|}.

Definition connector : KeyStoneJS := {| keystone := engine; modelPrefix := None |}.

End ReadOnly.

(** Filters and model data to run the operations on. *)

Module Runs.

Import Mem.

Definition where_a_1 : value := VArr [VStr "where"; VObj [("a", VNum 1)]].
Definition limit_5 : value := VArr [VStr "limit"; VNum 5].
Definition dropTable : value := VArr [VStr "dropTable"].
Definition where_5 : value := VArr [VStr "where"; VNum 5].

Definition base : query engine := MQuery "users" [].
Definition after_where : query engine := MQuery "users" [("where", [VObj [("a", VNum 1)]])].
Definition after_limit : query engine :=
  MQuery "users" [("where", [VObj [("a", VNum 1)]]); ("limit", [VNum 5])].

Definition newcomer : value := VObj [("id", VNum 9); ("name", VStr "Di")].
Definition known : value := VObj [("id", VNum 1); ("name", VStr "Ann B.")].
Definition nameless : value := VObj [("name", VStr "Ed")].
Definition keyed : value := VObj [("key", VNum 1); ("name", VStr "Ann B.")].

Definition everyone : list value := List.map wrap [ann; bob; cy].

Definition where_drop_limit : filter_arg :=
  FilterArr [where_a_1; VArr [VStr "dropTable"; VNum 1]; limit_5].

End Runs.

(** ** The connectors there are *)

(** A connector comes from settings with an engine, the tracing off and a
    prefix that compiles, and keeps their engine and their prefix. *)
Lemma initialize_connector (RegExp_compiles : string -> bool) (settings : Settings)
    (self : KeyStoneJS) :
  initialize RegExp_compiles settings = inr (Some self) ->
  truthy (settings_debug settings) = false
  /\ prefix_compiles RegExp_compiles settings = true
  /\ settings_keystone settings = Some (keystone self)
  /\ modelPrefix self = settings_modelPrefix settings.
Proof.
  unfold initialize, new_KeyStoneJS.
  destruct (settings_keystone settings) as [engine|]; [|discriminate].
  destruct (truthy (settings_debug settings)); [discriminate|].
  destruct (prefix_compiles RegExp_compiles settings); [|discriminate].
  intros [= <-]. repeat split.
Qed.

(** ** Properties of the operations by identifier *)

Ltac run_eff := unfold bind, call, note, emit, ret; simpl.

Section ByIdentifier.

Context (self : KeyStoneJS) (F : Framework (keystone self)).

Local Abbreviation E := (keystone self).

(** [find] and [create] make no call but their own on the engine. *)
Lemma find_events model id d ev :
  ev ∈ events (find self model id d) -> ev = FindById (registry_key self model) id.
Proof.
  unfold find. destruct (lists E !! registry_key self model) as [M|]; run_eff.
  - destruct (model_findById E M id d) as [[err data] d'].
    destruct (truthy err); run_eff; intros Hin; apply list_elem_of_singleton in Hin; exact Hin.
  - intros Hin. inversion Hin.
Qed.

Lemma create_events model data d ev :
  ev ∈ events (create self model data d) ->
  ev = NewSave ViaLists (registry_key self model) data.
Proof.
  unfold create. destruct (lists E !! registry_key self model) as [M|]; run_eff.
  - destruct (model_save E M data d) as [err d'].
    run_eff. intros Hin. apply list_elem_of_singleton in Hin. exact Hin.
  - intros Hin. inversion Hin.
Qed.

(** [create] hands its callback the error alone. *)
Lemma create_outcome model data d :
  (exists err, outcome (create self model data d) = Callback err VUndefined)
  \/ (exists ex, outcome (create self model data d) = Throws ex).
Proof.
  unfold create. destruct (lists E !! registry_key self model) as [M|]; run_eff.
  - destruct (model_save E M data d) as [err d']. left. exists err. reflexivity.
  - right. eexists. reflexivity.
Qed.

End ByIdentifier.

(** C7: [exists] completes with [true] exactly when the lookup by identifier
    reports no error and yields data, with [false] otherwise; the engine's
    error is handed on as it is. *)
Theorem exists_iff_found (self : KeyStoneJS) (model : string) (id : value)
    (M : handle (keystone self)) (d d' : db (keystone self)) (err data : value) :
  lists (keystone self) !! registry_key self model = Some M ->
  model_findById (keystone self) M id d = ((err, data), d') ->
  exists b : bool,
    exists_ self model id d
      = ([FindById (registry_key self model) id], d', Callback err (VBool b))
    /\ (b = true <-> truthy err = false /\ truthy data = true).
Proof.
  intros HM Hfind. exists (negb (truthy err) && truthy data). split.
  - unfold exists_. rewrite HM. run_eff. rewrite Hfind. reflexivity.
  - destruct (truthy err), (truthy data); simpl; intuition congruence.
Qed.

(** C6: with data whose identifier is [null] or [undefined],
    [updateOrCreate] is [create] on the same arguments, and no lookup by
    identifier is among its calls. *)
Theorem updateOrCreate_without_id (self : KeyStoneJS) (F : Framework (keystone self))
    (model : string) (data : value) (d : db (keystone self)) :
  nullish (getIdValue F model data) = true ->
  updateOrCreate self F model data d = create self model data d
  /\ forall name id, FindById name id ∉ events (updateOrCreate self F model data d).
Proof.
  intros Hid.
  assert (Heq : updateOrCreate self F model data d = create self model data d).
  { unfold updateOrCreate. rewrite Hid. reflexivity. }
  split; [exact Heq|].
  intros name id Hin. rewrite Heq in Hin.
  apply create_events in Hin. discriminate Hin.
Qed.

(** C3: when the data carries an identifier and [find] on it reports no
    error and a record, [updateOrCreate] calls [updateAttributes] with the
    model, the identifier and the data, completes as that call does, and
    never creates. *)
Theorem updateOrCreate_existing (self : KeyStoneJS) (F : Framework (keystone self))
    (model : string) (data : value) (d d1 d2 : db (keystone self))
    (evs : list (event (keystone self))) (err inst : value) (c : completion) :
  let idValue := getIdValue F model data in
  nullish idValue = false ->
  find self model idValue d = (evs, d1, Callback err inst) ->
  truthy err = false ->
  truthy inst = true ->
  updateAttributes F model idValue data d1 = (c, d2) ->
  updateOrCreate self F model data d
    = (evs ++ [UpdateAttributes model idValue data], d2, c)
  /\ forall path name data', NewSave path name data' ∉ events (updateOrCreate self F model data d).
Proof.
  intros idValue Hid Hfind Herr Hinst Hupd.
  assert (Heq : updateOrCreate self F model data d
                = (evs ++ [UpdateAttributes model idValue data], d2, c)).
  { unfold updateOrCreate. fold idValue. rewrite Hid.
    unfold bind at 1. rewrite Hfind. rewrite Herr, Hinst.
    unfold call. rewrite Hupd. reflexivity. }
  split; [exact Heq|].
  intros path name data' Hin. rewrite Heq in Hin. unfold events in Hin. simpl in Hin.
  apply elem_of_app in Hin as [Hin|Hin].
  - assert (Hev : NewSave path name data' ∈ events (find self model idValue d))
      by (rewrite Hfind; exact Hin).
    apply find_events in Hev. discriminate Hev.
  - apply list_elem_of_singleton in Hin. discriminate Hin.
Qed.

(** C9: [create] never hands an identifier to its callback.  So when the
    lookup finds nothing and the save reports no error, [updateOrCreate]
    completes with [(null, null)]; and in no run at all is the identifier
    written back onto the data. *)
Theorem updateOrCreate_created_null (self : KeyStoneJS) (F : Framework (keystone self))
    (model : string) (data : value) :
  (forall d err id, outcome (create self model data d) = Callback err id -> id = VUndefined)
  /\ (forall (M : handle (keystone self)) (d d1 d2 : db (keystone self)) (err found err' : value),
        let idValue := getIdValue F model data in
        let key := registry_key self model in
        nullish idValue = false ->
        lists (keystone self) !! key = Some M ->
        model_findById (keystone self) M idValue d = ((err, found), d1) ->
        truthy err = false ->
        truthy (fromDatabase key found) = false ->
        model_save (keystone self) M data d1 = (err', d2) ->
        truthy err' = false ->
        updateOrCreate self F model data d
          = ([FindById key idValue; NewSave ViaLists key data], d2, Callback VNull VNull))
  /\ (forall d model' data' id,
        SetIdValue model' data' id ∉ events (updateOrCreate self F model data d)).
Proof.
  split; [|split].
  - intros d err id Hc.
    destruct (create_outcome self model data d) as [[err0 H0]|[ex H0]];
      rewrite H0 in Hc; congruence.
  - intros M d d1 d2 err found err' idValue key Hid HM Hfind Herr Hinst Hsave Herr'.
    unfold updateOrCreate. fold idValue. rewrite Hid.
    unfold find, create. fold key. rewrite HM. run_eff.
    rewrite Hfind. rewrite Herr. run_eff. rewrite Herr, Hinst.
    rewrite Hsave. run_eff. rewrite Herr'. reflexivity.
  - intros d model' data' id Hin.
    unfold updateOrCreate in Hin.
    destruct (nullish (getIdValue F model data)).
    { apply create_events in Hin. discriminate Hin. }
    unfold bind at 1 in Hin.
    destruct (find self model (getIdValue F model data) d) as [[evs d1] found] eqn:Hfind.
    assert (Hfev : forall ev, ev ∈ evs -> ev = FindById (registry_key self model) (getIdValue F model data)).
    { intros ev Hev. apply (find_events self model _ d). rewrite Hfind. exact Hev. }
    destruct found as [err inst|ex].
    + destruct (truthy err).
      { run_eff. unfold events in Hin. simpl in Hin. rewrite app_nil_r in Hin.
        apply Hfev in Hin. discriminate Hin. }
      destruct (truthy inst).
      { unfold call in Hin.
        destruct (updateAttributes F model (getIdValue F model data) data d1) as [c d2].
        unfold events in Hin. simpl in Hin.
        apply elem_of_app in Hin as [Hin|Hin]; [apply Hfev in Hin; discriminate Hin|].
        apply list_elem_of_singleton in Hin. discriminate Hin. }
      unfold bind at 1 in Hin.
      destruct (create self model data d1) as [[evs' d2] created] eqn:Hcreate.
      assert (Hcev : forall ev, ev ∈ evs' -> ev = NewSave ViaLists (registry_key self model) data).
      { intros ev Hev. apply (create_events self model data d1). rewrite Hcreate. exact Hev. }
      assert (Hout : outcome (create self model data d1) = created) by (rewrite Hcreate; reflexivity).
      assert (Hnoid : forall err0 id0, created = Callback err0 id0 -> id0 = VUndefined).
      { intros err0 id0 Hc.
        destruct (create_outcome self model data d1) as [[e1 H1]|[ex H1]];
          rewrite Hout in H1; congruence. }
      destruct created as [err0 id0|ex].
      * rewrite (Hnoid err0 id0 eq_refl) in Hin. simpl in Hin.
        destruct (truthy err0); run_eff; unfold events in Hin; simpl in Hin;
          rewrite !app_nil_r in Hin;
          (apply elem_of_app in Hin as [Hin|Hin];
            [apply Hfev in Hin; discriminate Hin | apply Hcev in Hin; discriminate Hin]).
      * run_eff. unfold events in Hin. simpl in Hin. rewrite !app_nil_r in Hin.
        apply elem_of_app in Hin as [Hin|Hin];
          [apply Hfev in Hin; discriminate Hin | apply Hcev in Hin; discriminate Hin].
    + run_eff. unfold events in Hin. simpl in Hin. rewrite app_nil_r in Hin.
      apply Hfev in Hin. discriminate Hin.
Qed.

(** ** Properties of [all] *)

Arguments contains : simpl never.

Lemma contains_allowed (cmd : string) :
  cmd ∈ filterWhitelist -> contains filterWhitelist (VStr cmd) = Some cmd.
Proof.
  intros Hin. unfold contains.
  destruct (existsb (String.eqb cmd) filterWhitelist) eqn:Hex; [reflexivity|].
  exfalso. apply list_elem_of_In in Hin.
  assert (Hsome : existsb (String.eqb cmd) filterWhitelist = true).
  { apply existsb_exists. exists cmd. split; [exact Hin|apply String.eqb_refl]. }
  congruence.
Qed.

Lemma contains_Some_inv (cmd : value) (c : string) :
  contains filterWhitelist cmd = Some c -> cmd = VStr c /\ c ∈ filterWhitelist.
Proof.
  unfold contains. destruct cmd; try discriminate.
  destruct (existsb (String.eqb s) filterWhitelist) eqn:Hex; [|discriminate].
  intros [= ->]. split; [reflexivity|].
  apply existsb_exists in Hex as (x & Hx & Heq).
  apply String.eqb_eq in Heq. subst x. apply list_elem_of_In. exact Hx.
Qed.

(** The error text is never empty, so [if (err)] sees it. *)
Lemma unsupported_truthy (cmd : value) : truthy (VStr (unsupported cmd)) = true.
Proof.
  unfold unsupported. simpl. destruct (to_string cmd); reflexivity.
Qed.

Lemma error_value_truthy (ex : exn) : truthy (error_value ex) = true.
Proof. reflexivity. Qed.

Section ChainingFacts.

Context {E : Engine}.

(** Chaining a descriptor in two parts is chaining it whole. *)
Lemma chained_app (steps1 steps2 : list step) (q q1 : query E) :
  chained steps1 q = inr q1 -> chained (steps1 ++ steps2) q = chained steps2 q1.
Proof.
  revert q. induction steps1 as [|[cmd args] steps1 IH]; intros q Hchain; simpl in *.
  - injection Hchain as ->. reflexivity.
  - destruct (query_apply E cmd args q) as [ex|q']; [discriminate|]. exact (IH q' Hchain).
Qed.

Lemma applications_app (steps1 steps2 : list step) (q q1 : query E) :
  chained steps1 q = inr q1 ->
  applications (steps1 ++ steps2) q = applications steps1 q ++ applications steps2 q1.
Proof.
  revert q. induction steps1 as [|[cmd args] steps1 IH]; intros q Hchain; simpl in *.
  - injection Hchain as ->. reflexivity.
  - destruct (query_apply E cmd args q) as [ex|q']; [discriminate|].
    rewrite (IH q' Hchain). reflexivity.
Qed.

(** A chaining that raises nothing makes one call for each step. *)
Lemma applications_length (steps : list step) (q q' : query E) :
  chained steps q = inr q' -> List.length (applications steps q) = List.length steps.
Proof.
  revert q. induction steps as [|[cmd args] steps IH]; intros q Hchain; simpl in *.
  - reflexivity.
  - destruct (query_apply E cmd args q) as [ex|q1]; [discriminate|].
    rewrite (IH q1 Hchain). reflexivity.
Qed.

(** The call for the step at position [i] is made on the handle that the
    steps before it have built. *)
Lemma applications_lookup (steps : list step) (q q' qi : query E) (i : nat) (cmd : string)
    (args : list value) :
  chained steps q = inr q' ->
  steps !! i = Some (cmd, args) ->
  chained (take i steps) q = inr qi ->
  applications steps q !! i = Some (Apply qi cmd args).
Proof.
  revert q i. induction steps as [|[c a] steps IH]; intros q i Hchain Hi Htake.
  - discriminate Hi.
  - simpl in Hchain. destruct (query_apply E c a q) as [ex|q1] eqn:Happly; [discriminate|].
    destruct i as [|i]; simpl in *.
    + injection Hi as -> ->. injection Htake as ->. reflexivity.
    + rewrite Happly in *. exact (IH q1 i Hchain Hi Htake).
Qed.

End ChainingFacts.

Section AllProperties.

Context (self : KeyStoneJS).

Local Abbreviation E := (keystone self).

(** Once [err] is set the remaining sub-filters are passed over. *)
Lemma each_after_error (subFilters : list value) (st : chain_state E) :
  truthy (cur_err st) = true -> each self subFilters st = (subFilters, [], st, None).
Proof.
  intros Herr. induction subFilters as [|s rest IH]; simpl; [reflexivity|].
  unfold each_subFilter. rewrite Herr. simpl. rewrite IH. reflexivity.
Qed.

(** Allowed steps whose chaining raises nothing are each shifted and
    applied in order, and [_.each] goes on with what follows them. *)
Lemma each_allowed_steps (steps : list step) (tail : list value) (q q' : query E) :
  Forall allowed steps ->
  chained steps q = inr q' ->
  each self (List.map subFilter_of steps ++ tail) (ChainState q VUndefined)
  = let '(tail', evs, st, raised) := each self tail (ChainState q' VUndefined) in
    (List.map shifted steps ++ tail', applications steps q ++ evs, st, raised).
Proof.
  intros Hall. revert q. induction Hall as [|[cmd args] steps Hcmd Hall IH]; intros q Hchain.
  - simpl in *. injection Hchain as ->.
    destruct (each self tail (ChainState q' VUndefined)) as [[[tail' evs] st] raised].
    reflexivity.
  - simpl in Hchain. simpl.
    unfold each_subFilter. simpl.
    rewrite (contains_allowed cmd Hcmd).
    destruct (query_apply E cmd args q) as [ex|q1] eqn:Happly; [discriminate|].
    simpl. rewrite (IH q1 Hchain).
    destruct (each self tail (ChainState q' VUndefined)) as [[[tail' evs] st] raised].
    reflexivity.
Qed.

(** [_.each] only applies filter commands: it executes nothing. *)
Lemma each_never_executes (subFilters : list value) (st : chain_state E) (q : query E) :
  Exec q ∉ (each self subFilters st).1.1.2.
Proof.
  revert st. induction subFilters as [|s rest IH]; intros st; simpl.
  - intros Hin. inversion Hin.
  - destruct (each_subFilter self st s) as [[[s' evs] st'] raised] eqn:Hstep.
    assert (Hevs : Exec q ∉ evs).
    { unfold each_subFilter in Hstep.
      destruct (truthy (cur_err st)); simpl in Hstep.
      - injection Hstep as <- <- <- <-. intros Hin. inversion Hin.
      - destruct (shift s) as [ex|[cmd items]].
        + injection Hstep as <- <- <- <-. intros Hin. inversion Hin.
        + destruct (contains filterWhitelist cmd) as [c|].
          * destruct (query_apply E c items (cur_query st));
              injection Hstep as <- <- <- <-; intros Hin;
              apply list_elem_of_singleton in Hin; discriminate Hin.
          * injection Hstep as <- <- <- <-. intros Hin. inversion Hin. }
    destruct raised as [ex|].
    + simpl. exact Hevs.
    + specialize (IH st').
      destruct (each self rest st') as [[[rest' evs'] st''] raised']. simpl in *.
      intros Hin. apply elem_of_app in Hin as [Hin|Hin]; [exact (Hevs Hin)|exact (IH Hin)].
Qed.

(** A descriptor with a rejected sub-filter leaves [_.each] with an
    exception, or with [err] naming a rejected command. *)
Lemma each_with_rejected (subFilters : list value) (st : chain_state E) (bad : value) :
  bad ∈ subFilters -> rejected bad ->
  unset_or_unsupported (cur_err st) ->
  let '(_, _, st', raised) := each self subFilters st in
  is_Some raised \/ (raised = None /\ exists cmd, cur_err st' = VStr (unsupported cmd)).
Proof.
  intros Hin Hbad. revert st.
  induction subFilters as [|s rest IH]; intros st Hst; [inversion Hin|].
  destruct Hst as [Hst|[cmd0 Hst]].
  2:{ rewrite each_after_error by (rewrite Hst; apply unsupported_truthy).
      right. split; [reflexivity|]. exists cmd0. exact Hst. }
  simpl. unfold each_subFilter. rewrite Hst. simpl.
  apply elem_of_cons in Hin as [->|Hin].
  - destruct Hbad as (items & -> & Hcmd).
    assert (Hshift : shift (VArr items) = inr (leading items, tl items))
      by (destruct items; reflexivity).
    rewrite Hshift, Hcmd.
    rewrite each_after_error by apply unsupported_truthy.
    right. split; [reflexivity|]. eexists. reflexivity.
  - destruct (shift s) as [ex|[cmd items]]; [left; eexists; reflexivity|].
    destruct (contains filterWhitelist cmd) as [c|].
    + destruct (query_apply E c items (cur_query st)) as [ex|q1]; [left; eexists; reflexivity|].
      assert (Hst1 : unset_or_unsupported (cur_err (ChainState q1 VUndefined)))
        by (left; reflexivity).
      specialize (IH Hin (ChainState q1 VUndefined) Hst1).
      destruct (each self rest (ChainState q1 VUndefined)) as [[[rest' evs'] st''] raised'].
      exact IH.
    + rewrite each_after_error by apply unsupported_truthy.
      right. split; [reflexivity|]. eexists. reflexivity.
Qed.

(** [_.each] takes nothing out of the descriptor and puts nothing in. *)
Lemma each_length (subFilters : list value) (st : chain_state E) :
  List.length (each self subFilters st).1.1.1 = List.length subFilters.
Proof.
  revert st. induction subFilters as [|s rest IH]; intros st; simpl; [reflexivity|].
  destruct (each_subFilter self st s) as [[[s' evs] st'] [ex|]]; simpl; [reflexivity|].
  specialize (IH st').
  destruct (each self rest st') as [[[rest' evs'] st''] raised']. simpl in *.
  rewrite IH. reflexivity.
Qed.

(** [all] on an array that is not empty: the chaining, then the error or
    the execution. *)
Lemma all_chaining (model : string) (M : handle E) (subFilters : list value) (d : db E) :
  lists E !! registry_key self model = Some M ->
  subFilters <> [] ->
  all self model (FilterArr subFilters) d
  = let key := registry_key self model in
    let '(subFilters', evs, st, raised) :=
      each self subFilters (ChainState (model_find E M) VUndefined) in
    let err := match raised with Some ex => error_value ex | None => cur_err st end in
    if truthy err
    then (Find key :: evs, d, (Callback err VUndefined, FilterArr subFilters'))
    else let '((err', data), d') := query_exec E (cur_query st) d in
         (Find key :: evs ++ [Exec (cur_query st)], d',
          (exec_callback key err' data, FilterArr subFilters')).
Proof.
  intros HM Hne. unfold all. rewrite HM.
  destruct subFilters as [|s rest]; [congruence|].
  destruct (each self (s :: rest) (ChainState (model_find E M) VUndefined))
    as [[[subFilters' evs] st] raised].
  cbv zeta.
  destruct (truthy (match raised with Some ex => error_value ex | None => cur_err st end)).
  - run_eff. rewrite (app_nil_r evs). reflexivity.
  - unfold exec_query. run_eff.
    destruct (query_exec E (cur_query st) d) as [[err' data] d']. reflexivity.
Qed.

(** [all] without chaining: the base query is executed as it is. *)
Lemma all_base (model : string) (M : handle E) (filter : filter_arg) (d : db E) :
  lists E !! registry_key self model = Some M ->
  filter = FilterNull \/ filter = FilterUndefined \/ filter = FilterArr [] ->
  all self model filter d
  = let key := registry_key self model in
    let '((err, data), d') := query_exec E (model_find E M) d in
    ([Find key; Exec (model_find E M)], d', (exec_callback key err data, filter)).
Proof.
  intros HM Hfilter. unfold all. rewrite HM.
  destruct Hfilter as [->|[->| ->]]; unfold exec_query; run_eff;
    destruct (query_exec E (model_find E M) d) as [[err data] d']; reflexivity.
Qed.

End AllProperties.

Ltac reduce_chain :=
  cbv beta iota zeta;
  cbn [each]; unfold each_subFilter;
  cbn [cur_err cur_query shift fst snd];
  try change (truthy VUndefined) with false;
  cbn [negb app]; cbv beta iota zeta.

(** C4: with an empty array and with [null] for a filter, [all] makes the
    base query of the model and executes it unchanged.  When the execution
    reports no error it completes with [null] and the whole result set
    unwrapped: for each document the execution yields, in its place, what
    the document holds under [_doc], or [null] for a document that is not
    there.  An error of the execution is handed on alone. *)
Theorem all_without_filter (self : KeyStoneJS) (model : string)
    (M : handle (keystone self)) (d d' : db (keystone self)) (err : value) (data : list value) :
  let key := registry_key self model in
  let base := model_find (keystone self) M in
  let unwrapped := List.map (fun doc => if truthy doc then get "_doc" doc else VNull) data in
  let completion :=
    if truthy err then Callback err VUndefined else Callback VNull (VArr unwrapped) in
  lists (keystone self) !! key = Some M ->
  query_exec (keystone self) base d = ((err, data), d') ->
  all self model (FilterArr []) d = ([Find key; Exec base], d', (completion, FilterArr []))
  /\ all self model FilterNull d = ([Find key; Exec base], d', (completion, FilterNull)).
Proof.
  intros key base unwrapped completion HM Hexec.
  assert (Hcb : exec_callback (registry_key self model) err data = completion).
  { unfold exec_callback, completion, unwrapped.
    destruct (truthy err); [reflexivity|].
    do 2 f_equal. apply map_ext. intros doc. unfold fromDatabase.
    destruct (truthy doc); reflexivity. }
  split.
  - rewrite (all_base self model M) by auto. fold base. rewrite Hexec.
    cbv beta iota zeta. rewrite Hcb. reflexivity.
  - rewrite (all_base self model M) by auto. fold base. rewrite Hexec.
    cbv beta iota zeta. rewrite Hcb. reflexivity.
Qed.

(** C5: given sub-filters that each lead with an allowed command, and whose
    chaining raises nothing, [all] applies each command to the handle the
    one before returned, with the rest of its sub-filter as arguments, in
    the order of the descriptor, and executes the last handle after them. *)
Theorem all_applies_in_order (self : KeyStoneJS) (model : string)
    (M : handle (keystone self)) (steps : list step) (q : query (keystone self))
    (d d' : db (keystone self)) (err : value) (data : list value) :
  let key := registry_key self model in
  let base := model_find (keystone self) M in
  lists (keystone self) !! key = Some M ->
  Forall allowed steps ->
  chained steps base = inr q ->
  query_exec (keystone self) q d = ((err, data), d') ->
  all self model (FilterArr (List.map subFilter_of steps)) d
    = (Find key :: applications steps base ++ [Exec q], d',
       (exec_callback key err data, FilterArr (List.map shifted steps))).
Proof.
  intros key base HM Hall Hchain Hexec.
  destruct steps as [|s steps'].
  { simpl in *. injection Hchain as <-.
    rewrite (all_base self model M) by auto. fold base. rewrite Hexec. reflexivity. }
  rewrite (all_chaining self model M) by (auto; discriminate).
  pose proof (each_allowed_steps self (s :: steps') [] base q Hall Hchain) as Heach.
  rewrite (app_nil_r (List.map subFilter_of (s :: steps'))) in Heach.
  fold base. rewrite Heach. reduce_chain.
  rewrite (app_nil_r (List.map shifted (s :: steps'))).
  rewrite (app_nil_r (applications (s :: steps') base)).
  rewrite Hexec. reflexivity.
Qed.

(** C1, as the code has it: a descriptor with a sub-filter whose leading
    command is not on the whitelist makes [all] complete with an error and
    nothing else, the query never executed and the store untouched; the
    error is the text naming a rejected command unless an exception came
    first.  When the sub-filters before the first rejected one are allowed
    and chain without raising, the error is ['<command> is not a supported
    filter command'] for that one. *)
Theorem all_rejects_unsupported (self : KeyStoneJS) (model : string)
    (M : handle (keystone self)) (d : db (keystone self)) :
  let key := registry_key self model in
  let base := model_find (keystone self) M in
  lists (keystone self) !! key = Some M ->
  (forall subFilters bad,
      bad ∈ subFilters -> rejected bad ->
      let r := all self model (FilterArr subFilters) d in
      (exists err, (outcome r).1 = Callback err VUndefined
          /\ ((exists cmd, err = VStr (unsupported cmd)) \/ (exists ex, err = error_value ex)))
      /\ (forall q, Exec q ∉ events r)
      /\ final_db r = d)
  /\ (forall steps items rest q,
      Forall allowed steps ->
      chained steps base = inr q ->
      contains filterWhitelist (leading items) = None ->
      all self model (FilterArr (List.map subFilter_of steps ++ VArr items :: rest)) d
        = (Find key :: applications steps base, d,
           (Callback (VStr (unsupported (leading items))) VUndefined,
            FilterArr (List.map shifted steps ++ VArr (tl items) :: rest)))).
Proof.
  intros key base HM. split.
  - intros subFilters bad Hin Hbad r. subst r.
    assert (Hne : subFilters <> []) by (intros ->; inversion Hin).
    rewrite (all_chaining self model M) by assumption.
    fold key base.
    pose proof (each_with_rejected self subFilters (ChainState base VUndefined) bad Hin Hbad
                  (or_introl eq_refl)) as Hrej.
    pose proof (each_never_executes self subFilters (ChainState base VUndefined)) as Hexec.
    destruct (each self subFilters (ChainState base VUndefined)) as [[[subFilters' evs] st] raised].
    simpl in Hexec. cbv beta iota zeta.
    destruct Hrej as [[ex ->]|[-> [cmd Hcmd]]].
    + rewrite error_value_truthy. repeat split.
      * eexists. split; [reflexivity|]. right. eexists. reflexivity.
      * intros q Hq. unfold events in Hq. simpl in Hq.
        apply elem_of_cons in Hq as [Hq|Hq]; [discriminate Hq|exact (Hexec q Hq)].
    + rewrite Hcmd, unsupported_truthy. repeat split.
      * eexists. split; [reflexivity|]. left. eexists. reflexivity.
      * intros q Hq. unfold events in Hq. simpl in Hq.
        apply elem_of_cons in Hq as [Hq|Hq]; [discriminate Hq|exact (Hexec q Hq)].
  - intros steps items rest q Hall Hchain Hcmd.
    rewrite (all_chaining self model M) by (auto; destruct steps; discriminate).
    fold key base.
    rewrite (each_allowed_steps self steps (VArr items :: rest) base q Hall Hchain).
    assert (Hshift : shift (VArr items) = inr (leading items, tl items))
      by (destruct items; reflexivity).
    cbn [each]. unfold each_subFilter. cbn [cur_err cur_query].
    change (truthy VUndefined) with false. cbn [negb]. cbv beta iota zeta.
    rewrite Hshift, Hcmd.
    rewrite each_after_error by apply unsupported_truthy.
    reduce_chain. rewrite unsupported_truthy.
    rewrite (app_nil_r (applications steps base)). reflexivity.
Qed.

(** C8: with the model in the registry no exception escapes [all]: every
    call ends in the completion callback.  An exception raised by a filter
    command, the sub-filters before it chained without one, is the error
    handed to the callback, and after the raising call nothing is called:
    the query is not executed. *)
Theorem all_catches_exceptions (self : KeyStoneJS) (model : string)
    (M : handle (keystone self)) (d : db (keystone self)) :
  let key := registry_key self model in
  let base := model_find (keystone self) M in
  lists (keystone self) !! key = Some M ->
  (forall filter, exists err result,
      (outcome (all self model filter d)).1 = Callback err result)
  /\ (forall steps cmd args rest q ex,
      Forall allowed steps ->
      chained steps base = inr q ->
      cmd ∈ filterWhitelist ->
      query_apply (keystone self) cmd args q = inl ex ->
      all self model (FilterArr (List.map subFilter_of steps ++ subFilter_of (cmd, args) :: rest)) d
        = (Find key :: applications steps base ++ [Apply q cmd args], d,
           (Callback (error_value ex) VUndefined,
            FilterArr (List.map shifted steps ++ VArr args :: rest)))).
Proof.
  intros key base HM. split.
  - intros filter.
    assert (Hbase : filter = FilterNull \/ filter = FilterUndefined \/ filter = FilterArr []
                    \/ exists s rest, filter = FilterArr (s :: rest)).
    { destruct filter as [| |[|s rest]]; eauto 6. }
    destruct Hbase as [H|[H|[H|(s & rest & ->)]]].
    1-3: rewrite (all_base self model M) by auto;
      destruct (query_exec (keystone self) (model_find (keystone self) M) d) as [[err data] d'];
      unfold exec_callback; destruct (truthy err); eexists; eexists; reflexivity.
    rewrite (all_chaining self model M) by (auto; discriminate).
    destruct (each self (s :: rest) (ChainState (model_find (keystone self) M) VUndefined))
      as [[[subFilters' evs] st] raised].
    cbv zeta.
    destruct (truthy (match raised with Some ex => error_value ex | None => cur_err st end)).
    + eexists. eexists. reflexivity.
    + destruct (query_exec (keystone self) (cur_query st) d) as [[err data] d'].
      unfold exec_callback; destruct (truthy err); eexists; eexists; reflexivity.
  - intros steps cmd args rest q ex Hall Hchain Hcmd Happly.
    rewrite (all_chaining self model M) by (auto; destruct steps; discriminate).
    fold key base.
    rewrite (each_allowed_steps self steps (subFilter_of (cmd, args) :: rest) base q Hall Hchain).
    unfold subFilter_of. reduce_chain. rewrite (contains_allowed cmd Hcmd).
    rewrite Happly. reduce_chain.
    rewrite error_value_truthy. reflexivity.
Qed.

(** C10: [all] changes the descriptor it is given.  Of every sub-filter it
    gets to, the ones chained before and the one at hand alike, the leading
    command is gone from the caller's array afterwards, also when that
    command is then rejected; so the descriptor is not what it was. *)
Theorem all_shifts_subFilters (self : KeyStoneJS) (model : string)
    (M : handle (keystone self)) (d : db (keystone self))
    (steps : list step) (cmd : value) (args rest : list value) (q : query (keystone self)) :
  let filter := FilterArr (List.map subFilter_of steps ++ VArr (cmd :: args) :: rest) in
  lists (keystone self) !! registry_key self model = Some M ->
  Forall allowed steps ->
  chained steps (model_find (keystone self) M) = inr q ->
  exists rest',
    (outcome (all self model filter d)).2
      = FilterArr (List.map shifted steps ++ VArr args :: rest')
    /\ List.length rest' = List.length rest
    /\ (contains filterWhitelist cmd = None -> rest' = rest)
    /\ (outcome (all self model filter d)).2 <> filter.
Proof.
  intros filter HM Hall Hchain. subst filter.
  assert (Hshape : exists rest',
    (outcome (all self model
       (FilterArr (List.map subFilter_of steps ++ VArr (cmd :: args) :: rest)) d)).2
      = FilterArr (List.map shifted steps ++ VArr args :: rest')
    /\ List.length rest' = List.length rest
    /\ (contains filterWhitelist cmd = None -> rest' = rest)).
  { rewrite (all_chaining self model M) by (auto; destruct steps; discriminate).
    rewrite (each_allowed_steps self steps (VArr (cmd :: args) :: rest) _ q Hall Hchain).
    reduce_chain.
    destruct (contains filterWhitelist cmd) as [c|] eqn:Hcmd.
    - destruct (query_apply (keystone self) c args q) as [ex|q1].
      + exists rest. reduce_chain. rewrite error_value_truthy.
        split; [reflexivity|]. split; reflexivity.
      + pose proof (each_length self rest (ChainState q1 VUndefined)) as Hlen.
        destruct (each self rest (ChainState q1 VUndefined)) as [[[rest' evs'] st'] raised'].
        simpl in Hlen. exists rest'. reduce_chain.
        destruct (truthy (match raised' with Some ex => error_value ex | None => cur_err st' end)).
        * split; [reflexivity|]. split; [exact Hlen|discriminate].
        * destruct (query_exec (keystone self) (cur_query st') d) as [[err data] d'].
          split; [reflexivity|]. split; [exact Hlen|discriminate].
    - rewrite each_after_error by apply unsupported_truthy.
      reduce_chain. rewrite unsupported_truthy.
      exists rest. split; [reflexivity|]. split; reflexivity. }
  destruct Hshape as (rest' & Hfinal & Hlen & Hrej).
  exists rest'. repeat split; try assumption.
  rewrite Hfinal. intros Heq. injection Heq as Heq.
  apply app_inj_1 in Heq as [_ Heq].
  - injection Heq as Hargs _.
    apply (f_equal (@List.length value)) in Hargs. simpl in Hargs. lia.
  - rewrite !length_map. reflexivity.
Qed.

(** ** The model prefix *)

Lemma prefix_append (p x : string) : String.prefix p (p +:+ x) = true.
Proof.
  induction p as [|c p IH]; simpl.
  - destruct x; reflexivity.
  - destruct (ascii_dec c c) as [_|Hne]; [exact IH|congruence].
Qed.

Lemma drop_chars_append (p x : string) : drop_chars (String.length p) (p +:+ x) = x.
Proof. induction p as [|c p IH]; simpl; [reflexivity|exact IH]. Qed.

Lemma removeModelPrefix_append (p x : string) : removeModelPrefix p (p +:+ x) = x.
Proof. unfold removeModelPrefix. rewrite prefix_append. apply drop_chars_append. Qed.

Lemma removeModelPrefix_other (p x : string) :
  String.prefix p x = false -> removeModelPrefix p x = x.
Proof. intros H. unfold removeModelPrefix. rewrite H. reflexivity. Qed.

Lemma prefix_false_nonempty (p x : string) : String.prefix p x = false -> p <> "".
Proof. intros H ->. destruct x; discriminate H. Qed.

Section Prefix.

Context (self : KeyStoneJS) (P X : string).

Hypothesis configured : modelPrefix self = Some P.
Hypothesis unprefixed : String.prefix P X = false.

Lemma registry_key_prefixed : registry_key self (P +:+ X) = X.
Proof.
  unfold registry_key. rewrite configured.
  assert (Hne : P <> "") by exact (prefix_false_nonempty P X unprefixed).
  destruct P as [|c p]; [congruence|].
  change (truthy (VStr (String c p))) with true. cbv iota.
  apply removeModelPrefix_append.
Qed.

Lemma registry_key_unprefixed : registry_key self X = X.
Proof.
  unfold registry_key. rewrite configured.
  destruct (truthy (VStr P)); [|reflexivity].
  apply removeModelPrefix_other. exact unprefixed.
Qed.

Lemma updateOrCreate_prefixed (F : Framework (keystone self)) (data : value) (d : db (keystone self)) :
  same_to_framework F (P +:+ X) X ->
  outcome (updateOrCreate self F (P +:+ X) data d) = outcome (updateOrCreate self F X data d)
  /\ final_db (updateOrCreate self F (P +:+ X) data d) = final_db (updateOrCreate self F X data d).
Proof.
  intros (HidName & HgetId & HsetId & Hupdate).
  unfold updateOrCreate.
  rewrite HidName, HgetId.
  assert (Hfind : forall id, find self (P +:+ X) id = find self X id).
  { intros id. unfold find. rewrite registry_key_prefixed, registry_key_unprefixed. reflexivity. }
  assert (Hcreate : create self (P +:+ X) data = create self X data).
  { unfold create. rewrite registry_key_prefixed, registry_key_unprefixed. reflexivity. }
  rewrite Hfind, Hcreate.
  destruct (nullish (getIdValue F X data)); [split; reflexivity|].
  unfold outcome, final_db, bind.
  destruct (find self X (getIdValue F X data) d) as [[evs d1] [err inst|ex]];
    [|split; reflexivity].
  destruct (truthy err); [split; reflexivity|].
  destruct (truthy inst).
  { unfold call. rewrite Hupdate.
    destruct (updateAttributes F X (getIdValue F X data) data d1) as [c d2].
    split; reflexivity. }
  destruct (create self X data d1) as [[evs' d2] [err' id|ex]]; [|split; reflexivity].
  destruct (truthy err'); [split; reflexivity|].
  destruct (truthy id); [|split; reflexivity].
  unfold note, emit, ret. cbv beta iota zeta. rewrite HsetId. split; reflexivity.
Qed.

End Prefix.

(** An empty prefix is no prefix. *)
Lemma registry_key_empty_prefix (self : KeyStoneJS) (model : string) :
  modelPrefix self = Some "" -> registry_key self model = model.
Proof. intros Hcfg. unfold registry_key. rewrite Hcfg. reflexivity. Qed.

(** C2, as the code has it: with a prefix [P] that is a literal pattern and
    a name [X] that does not itself start with [P] (or with [P] empty),
    every operation looks the registry up under [X] for [P+X] as for [X],
    and [create], [save], [exists], [find], [destroy] and [all] are the same
    computation on either name.  [updateOrCreate] hands the name as given to
    the base class; when the base class treats the two names alike it
    completes alike and leaves the same store. *)
Theorem prefix_stripped (self : KeyStoneJS) (P X : string) :
  modelPrefix self = Some P ->
  regex_literal P = true ->
  P = "" \/ String.prefix P X = false ->
  registry_key self (P +:+ X) = X
  /\ registry_key self X = X
  /\ (forall data, create self (P +:+ X) data = create self X data)
  /\ (forall data, save self (P +:+ X) data = save self X data)
  /\ (forall id, exists_ self (P +:+ X) id = exists_ self X id)
  /\ (forall id, find self (P +:+ X) id = find self X id)
  /\ (forall id, destroy self (P +:+ X) id = destroy self X id)
  /\ (forall filter, all self (P +:+ X) filter = all self X filter)
  /\ (forall (F : Framework (keystone self)) data d,
        same_to_framework F (P +:+ X) X ->
        outcome (updateOrCreate self F (P +:+ X) data d) = outcome (updateOrCreate self F X data d)
        /\ final_db (updateOrCreate self F (P +:+ X) data d)
           = final_db (updateOrCreate self F X data d)).
Proof.
  intros Hcfg Hlit [->|Hx].
  { change ("" +:+ X) with X.
    pose proof (registry_key_empty_prefix self X Hcfg) as Hkey.
    repeat split; auto. }
  pose proof (registry_key_prefixed self P X Hcfg Hx) as Hp.
  pose proof (registry_key_unprefixed self P X Hcfg Hx) as Hu.
  repeat split; try assumption.
  - intros data. unfold create. rewrite Hp, Hu. reflexivity.
  - intros data. unfold save. rewrite Hp, Hu. reflexivity.
  - intros id. unfold exists_. rewrite Hp, Hu. reflexivity.
  - intros id. unfold find. rewrite Hp, Hu. reflexivity.
  - intros id. unfold destroy. rewrite Hp, Hu. reflexivity.
  - intros filter. unfold all. rewrite Hp, Hu. reflexivity.
  - apply (updateOrCreate_prefixed self P X Hcfg Hx F data d H).
  - apply (updateOrCreate_prefixed self P X Hcfg Hx F data d H).
Qed.

(** ** The operations on the engine in memory *)

Section OnMemory.

Import Mem Runs.

Example all_where_limit :
  all plain "User" (FilterArr [where_a_1; limit_5]) users
  = ([Find "User";
      Apply base "where" [VObj [("a", VNum 1)]];
      Apply after_where "limit" [VNum 5];
      Exec after_limit],
     users,
     (Callback VNull (VArr [ann; bob]),
      FilterArr [VArr [VObj [("a", VNum 1)]]; VArr [VNum 5]])).
Proof. reflexivity. Qed.

Example all_dropTable :
  all plain "User" (FilterArr [dropTable]) users
  = ([Find "User"], users,
     (Callback (VStr "dropTable is not a supported filter command") VUndefined,
      FilterArr [VArr []])).
Proof. reflexivity. Qed.

Example all_empty_subFilter :
  outcome (all plain "User" (FilterArr [VArr []]) users)
  = (Callback (VStr "undefined is not a supported filter command") VUndefined,
     FilterArr [VArr []]).
Proof. reflexivity. Qed.

Example all_unknown_model :
  all plain "Page" FilterNull users = ([], users, (Throws no_such_model, FilterNull)).
Proof. reflexivity. Qed.

Example find_missing :
  find plain "User" (VNum 7) users = ([FindById "User" (VNum 7)], users, Callback VNull VNull).
Proof. reflexivity. Qed.

Example fromDatabase_null : fromDatabase "User" VNull = VNull.
Proof. reflexivity. Qed.

End OnMemory.

(** ** The theorems on the engine in memory *)

Lemma exists_iff_found_witness :
  exists b : bool,
    exists_ Mem.plain "User" (VNum 2) Mem.users
      = ([FindById "User" (VNum 2)], Mem.users, Callback VNull (VBool b))
    /\ (b = true <-> truthy VNull = false /\ truthy (Mem.wrap Mem.bob) = true).
Proof.
  apply (exists_iff_found Mem.plain "User" (VNum 2) "users" Mem.users Mem.users
           VNull (Mem.wrap Mem.bob)); reflexivity.
Defined.

Lemma updateOrCreate_without_id_witness :
  updateOrCreate Mem.plain Mem.framework "User" Runs.nameless Mem.users
    = create Mem.plain "User" Runs.nameless Mem.users
  /\ forall name id,
       FindById name id ∉ events (updateOrCreate Mem.plain Mem.framework "User" Runs.nameless Mem.users).
Proof.
  apply (updateOrCreate_without_id Mem.plain Mem.framework "User" Runs.nameless Mem.users).
  reflexivity.
Defined.

Lemma updateOrCreate_existing_witness :
  updateOrCreate Mem.plain Mem.framework "User" Runs.known Mem.users
    = ([FindById "User" (VNum 1)] ++ [UpdateAttributes "User" (VNum 1) Runs.known],
       Mem.users, Callback VNull Runs.known)
  /\ forall path name data',
       NewSave path name data'
         ∉ events (updateOrCreate Mem.plain Mem.framework "User" Runs.known Mem.users).
Proof.
  apply (updateOrCreate_existing Mem.plain Mem.framework "User" Runs.known
           Mem.users Mem.users Mem.users [FindById "User" (VNum 1)] VNull Mem.ann
           (Callback VNull Runs.known)); reflexivity.
Defined.

Lemma updateOrCreate_created_null_witness :
  updateOrCreate Mem.plain Mem.framework "User" Runs.newcomer Mem.users
    = ([FindById "User" (VNum 9); NewSave ViaLists "User" Runs.newcomer],
       Mem.users ++ [("users", Runs.newcomer)], Callback VNull VNull).
Proof.
  destruct (updateOrCreate_created_null Mem.plain Mem.framework "User" Runs.newcomer)
    as (_ & Hnull & _).
  apply (Hnull "users" Mem.users Mem.users (Mem.users ++ [("users", Runs.newcomer)])
           VNull VNull VNull); reflexivity.
Defined.

Lemma all_without_filter_witness :
  all Mem.plain "User" (FilterArr []) Mem.users
    = ([Find "User"; Exec Runs.base], Mem.users,
       (Callback VNull
          (VArr [VObj [("_id", VNum 1); ("name", VStr "Ann"); ("a", VNum 1)];
                 VObj [("_id", VNum 2); ("name", VStr "Bob"); ("a", VNum 1)];
                 VObj [("_id", VNum 3); ("name", VStr "Cy"); ("a", VNum 2)]]),
        FilterArr []))
  /\ all Mem.plain "User" FilterNull Mem.users
    = ([Find "User"; Exec Runs.base], Mem.users,
       (Callback VNull
          (VArr [VObj [("_id", VNum 1); ("name", VStr "Ann"); ("a", VNum 1)];
                 VObj [("_id", VNum 2); ("name", VStr "Bob"); ("a", VNum 1)];
                 VObj [("_id", VNum 3); ("name", VStr "Cy"); ("a", VNum 2)]]),
        FilterNull)).
Proof.
  apply (all_without_filter Mem.plain "User" "users" Mem.users Mem.users VNull
           [VObj [("_doc", VObj [("_id", VNum 1); ("name", VStr "Ann"); ("a", VNum 1)])];
            VObj [("_doc", VObj [("_id", VNum 2); ("name", VStr "Bob"); ("a", VNum 1)])];
            VObj [("_doc", VObj [("_id", VNum 3); ("name", VStr "Cy"); ("a", VNum 2)])]]);
    reflexivity.
Defined.

Lemma allowed_where : allowed ("where", [VObj [("a", VNum 1)]]).
Proof. apply list_elem_of_here. Qed.

Lemma allowed_limit : allowed ("limit", [VNum 5]).
Proof. do 3 apply list_elem_of_further. apply list_elem_of_here. Qed.

Lemma all_applies_in_order_witness :
  all Mem.plain "User" (FilterArr [Runs.where_a_1; Runs.limit_5]) Mem.users
  = ([Find "User";
      Apply Runs.base "where" [VObj [("a", VNum 1)]];
      Apply Runs.after_where "limit" [VNum 5];
      Exec Runs.after_limit],
     Mem.users,
     (Callback VNull (VArr [Mem.ann; Mem.bob]),
      FilterArr [VArr [VObj [("a", VNum 1)]]; VArr [VNum 5]])).
Proof.
  apply (all_applies_in_order Mem.plain "User" "users"
           [("where", [VObj [("a", VNum 1)]]); ("limit", [VNum 5])]
           Runs.after_limit Mem.users Mem.users VNull
           (List.map Mem.wrap [Mem.ann; Mem.bob])).
  - reflexivity.
  - constructor; [exact allowed_where|]. constructor; [exact allowed_limit|]. constructor.
  - reflexivity.
  - reflexivity.
Defined.

Lemma all_rejects_unsupported_witness :
  all Mem.plain "User" (FilterArr [Runs.dropTable]) Mem.users
  = ([Find "User"], Mem.users,
     (Callback (VStr "dropTable is not a supported filter command") VUndefined,
      FilterArr [VArr []])).
Proof.
  destruct (all_rejects_unsupported Mem.plain "User" "users" Mem.users eq_refl) as [_ Hfirst].
  apply (Hfirst [] [VStr "dropTable"] [] Runs.base); [constructor|reflexivity|reflexivity].
Defined.

(** C1 does not hold of every descriptor.  These two have a sub-filter
    that leads with [dropTable], and [all] completes with a [TypeError]
    instead of the text that names the command: one has [where(5)] before
    it, which the engine refuses, the other an element before it that is not
    an array. *)
Lemma all_unsupported_counterexample :
  Runs.dropTable ∈ [Runs.where_5; Runs.dropTable]
  /\ rejected Runs.dropTable
  /\ (outcome (all Mem.plain "User" (FilterArr [Runs.where_5; Runs.dropTable]) Mem.users)).1
     = Callback (VError "TypeError" "path must be a string or object") VUndefined
  /\ ~ names_unsupported
        (outcome (all Mem.plain "User" (FilterArr [Runs.where_5; Runs.dropTable]) Mem.users)).1
  /\ (outcome (all Mem.plain "User" (FilterArr [VNum 5; Runs.dropTable]) Mem.users)).1
     = Callback (VError "TypeError" "subFilter.shift is not a function") VUndefined
  /\ ~ names_unsupported
        (outcome (all Mem.plain "User" (FilterArr [VNum 5; Runs.dropTable]) Mem.users)).1.
Proof.
  repeat split.
  - apply list_elem_of_further, list_elem_of_here.
  - exists [VStr "dropTable"]. split; reflexivity.
  - intros [cmd Hcmd]. discriminate Hcmd.
  - intros [cmd Hcmd]. discriminate Hcmd.
Qed.

Lemma all_catches_exceptions_witness :
  all Mem.plain "User" (FilterArr [Runs.where_5; Runs.limit_5]) Mem.users
  = ([Find "User"; Apply Runs.base "where" [VNum 5]], Mem.users,
     (Callback (VError "TypeError" "path must be a string or object") VUndefined,
      FilterArr [VArr [VNum 5]; Runs.limit_5])).
Proof.
  destruct (all_catches_exceptions Mem.plain "User" "users" Mem.users eq_refl) as [_ Hcaught].
  apply (Hcaught [] "where" [VNum 5] [Runs.limit_5] Runs.base
           (TypeError "path must be a string or object")).
  - constructor.
  - reflexivity.
  - apply list_elem_of_here.
  - reflexivity.
Defined.

Lemma all_shifts_subFilters_witness :
  exists rest',
    (outcome (all Mem.plain "User" Runs.where_drop_limit Mem.users)).2
      = FilterArr ([VArr [VObj [("a", VNum 1)]]] ++ VArr [VNum 1] :: rest')
    /\ List.length rest' = 1%nat
    /\ (contains filterWhitelist (VStr "dropTable") = None -> rest' = [Runs.limit_5])
    /\ (outcome (all Mem.plain "User" Runs.where_drop_limit Mem.users)).2
       <> Runs.where_drop_limit.
Proof.
  apply (all_shifts_subFilters Mem.plain "User" "users" Mem.users
           [("where", [VObj [("a", VNum 1)]])] (VStr "dropTable") [VNum 1] [Runs.limit_5]
           Runs.after_where).
  - reflexivity.
  - constructor; [exact allowed_where|]. constructor.
  - reflexivity.
Defined.

Lemma prefix_stripped_witness :
  registry_key Mem.prefixed ("ks" +:+ "User") = "User"
  /\ (forall id, exists_ Mem.prefixed ("ks" +:+ "User") id = exists_ Mem.prefixed "User" id)
  /\ (forall filter, all Mem.prefixed ("ks" +:+ "User") filter = all Mem.prefixed "User" filter).
Proof.
  destruct (prefix_stripped Mem.prefixed "ks" "User" eq_refl eq_refl (or_intror eq_refl))
    as (Hkey & _ & _ & _ & Hexists & _ & _ & Hall & _).
  split; [exact Hkey|]. split; [exact Hexists|exact Hall].
Defined.

(** C2 does not hold of every name.  With the prefix [ks], the name
    [ksksUser] is the prefix before [ksUser]; [exists] looks the first up in
    the list [ksUser] and the second in the list [User].  And
    [updateOrCreate] asks the base class for the identifier under the name
    it is given, [ksUser] in one call and [User] in the other: the same data
    is an update in the first and a new record in the second. *)
Lemma prefix_counterexample :
  modelPrefix Mem.prefixed = Some "ks"
  /\ exists_ Mem.prefixed ("ks" +:+ "ksUser") (VNum 1) Mem.users
     = ([FindById "ksUser" (VNum 1)], Mem.users, Callback VNull (VBool false))
  /\ exists_ Mem.prefixed "ksUser" (VNum 1) Mem.users
     = ([FindById "User" (VNum 1)], Mem.users, Callback VNull (VBool true))
  /\ exists_ Mem.prefixed ("ks" +:+ "ksUser") (VNum 1) Mem.users
     <> exists_ Mem.prefixed "ksUser" (VNum 1) Mem.users
  /\ updateOrCreate Mem.prefixed Mem.framework ("ks" +:+ "User") Runs.keyed Mem.users
     = ([FindById "User" (VNum 1); UpdateAttributes "ksUser" (VNum 1) Runs.keyed],
        Mem.users, Callback VNull Runs.keyed)
  /\ updateOrCreate Mem.prefixed Mem.framework "User" Runs.keyed Mem.users
     = ([NewSave ViaLists "User" Runs.keyed], Mem.users ++ [("users", Runs.keyed)],
        Callback VNull VUndefined)
  /\ outcome (updateOrCreate Mem.prefixed Mem.framework ("ks" +:+ "User") Runs.keyed Mem.users)
     <> outcome (updateOrCreate Mem.prefixed Mem.framework "User" Runs.keyed Mem.users).
Proof.
  repeat split; discriminate.
Qed.

(** ** Further properties: the constructor and the registry *)

(** X1: [initialize] makes a connector exactly when the settings carry an
    engine, the tracing is off and the prefix, if one is set, compiles as a
    pattern behind [^]; the connector keeps that engine and the prefix of the
    settings.  Without an engine it makes none and raises nothing.  With an
    engine it raises a [ReferenceError] when the tracing is on, and
    otherwise a [SyntaxError] when the prefix is no regular expression. *)
Theorem initialize_cases (RegExp_compiles : string -> bool) (settings : Settings) :
  (forall self, initialize RegExp_compiles settings = inr (Some self) <->
     exists engine, settings_keystone settings = Some engine
       /\ truthy (settings_debug settings) = false
       /\ prefix_compiles RegExp_compiles settings = true
       /\ self = {| keystone := engine; modelPrefix := settings_modelPrefix settings |})
  /\ (initialize RegExp_compiles settings = inr None <-> settings_keystone settings = None)
  /\ (forall engine, settings_keystone settings = Some engine ->
        truthy (settings_debug settings) = true ->
        exists message, initialize RegExp_compiles settings = inl (Exn "ReferenceError" message))
  /\ (forall engine, settings_keystone settings = Some engine ->
        truthy (settings_debug settings) = false ->
        prefix_compiles RegExp_compiles settings = false ->
        exists message, initialize RegExp_compiles settings = inl (Exn "SyntaxError" message)).
Proof.
  unfold initialize, new_KeyStoneJS.
  destruct (settings_keystone settings) as [engine|].
  2:{ split; [|split; [|split]].
      - intros self. split; [discriminate|]. intros (e & He & _). discriminate He.
      - split; reflexivity.
      - intros e He. discriminate He.
      - intros e He. discriminate He. }
  destruct (truthy (settings_debug settings)).
  { split; [|split; [|split]].
    - intros self. split; [discriminate|]. intros (e & _ & Hoff & _). discriminate Hoff.
    - split; discriminate.
    - intros e _ _. eexists. reflexivity.
    - intros e _ Hoff. discriminate Hoff. }
  destruct (prefix_compiles RegExp_compiles settings).
  - split; [|split; [|split]].
    + intros self. split.
      * intros [= <-]. exists engine. repeat split.
      * intros (e & [= <-] & _ & _ & ->). reflexivity.
    + split; discriminate.
    + intros e _ Hon. discriminate Hon.
    + intros e _ _ Hbad. discriminate Hbad.
  - split; [|split; [|split]].
    + intros self. split; [discriminate|]. intros (e & _ & _ & Hok & _). discriminate Hok.
    + split; discriminate.
    + intros e _ Hon. discriminate Hon.
    + intros e _ _ _. eexists. reflexivity.
Qed.

(** X2: for a name whose key is not in the registry every operation raises
    the [TypeError] of reading [.model] off [undefined], before any call on
    the engine, and leaves the store and the filter as they were; [save]
    does so for a key that is not on its own registry path. *)
Theorem unknown_model_throws (self : KeyStoneJS) (F : Framework (keystone self))
    (model : string) :
  (lists (keystone self) !! registry_key self model = None ->
     (forall data d, create self model data d = ([], d, Throws no_such_model))
     /\ (forall id d, exists_ self model id d = ([], d, Throws no_such_model))
     /\ (forall id d, find self model id d = ([], d, Throws no_such_model))
     /\ (forall id d, destroy self model id d = ([], d, Throws no_such_model))
     /\ (forall filter d, all self model filter d = ([], d, (Throws no_such_model, filter)))
     /\ (forall data d, updateOrCreate self F model data d = ([], d, Throws no_such_model)))
  /\ (direct (keystone self) !! registry_key self model = None ->
      forall data d, save self model data d = ([], d, Throws no_such_model)).
Proof.
  split.
  - intros Hnone.
    assert (Hcreate : forall data d, create self model data d = ([], d, Throws no_such_model))
      by (intros data d; unfold create; rewrite Hnone; reflexivity).
    assert (Hfind : forall id d, find self model id d = ([], d, Throws no_such_model))
      by (intros id d; unfold find; rewrite Hnone; reflexivity).
    repeat split; try assumption.
    + intros id d. unfold exists_. rewrite Hnone. reflexivity.
    + intros id d. unfold destroy. rewrite Hnone. reflexivity.
    + intros filter d. unfold all. rewrite Hnone. reflexivity.
    + intros data d. unfold updateOrCreate.
      destruct (nullish (getIdValue F model data)); [apply Hcreate|].
      unfold bind. rewrite Hfind. reflexivity.
  - intros Hnone data d. unfold save. rewrite Hnone. reflexivity.
Qed.

Lemma unknown_model_throws_witness :
  all Mem.plain "Page" (FilterArr [Runs.dropTable]) Mem.users
    = ([], Mem.users, (Throws no_such_model, FilterArr [Runs.dropTable]))
  /\ updateOrCreate Mem.plain Mem.framework "Page" Runs.known Mem.users
    = ([], Mem.users, Throws no_such_model)
  /\ save Mem.plain "ksUser" Runs.known Mem.users = ([], Mem.users, Throws no_such_model).
Proof.
  destruct (unknown_model_throws Mem.plain Mem.framework "Page") as [Hlists _].
  destruct (Hlists eq_refl) as (_ & _ & _ & _ & Hall & Hupsert).
  destruct (unknown_model_throws Mem.plain Mem.framework "ksUser") as [_ Hdirect].
  split; [apply Hall|]. split; [apply Hupsert|]. apply (Hdirect eq_refl).
Defined.

(** X3: [create] and [save] read the model off two different registry
    paths; when both paths give the same model for the key, the two complete
    alike, each with the error of the one save it asks of the engine and no
    result, and leave the same store. *)
Theorem save_like_create (self : KeyStoneJS) (model : string) (data : value)
    (M : handle (keystone self)) (d d' : db (keystone self)) (err : value) :
  let key := registry_key self model in
  lists (keystone self) !! key = Some M ->
  direct (keystone self) !! key = Some M ->
  model_save (keystone self) M data d = (err, d') ->
  create self model data d = ([NewSave ViaLists key data], d', Callback err VUndefined)
  /\ save self model data d = ([NewSave ViaKeystone key data], d', Callback err VUndefined).
Proof.
  intros key Hlists Hdirect Hsave. unfold create, save. fold key.
  rewrite Hlists, Hdirect. unfold bind, call, ret. rewrite Hsave. split; reflexivity.
Qed.

Lemma save_like_create_witness :
  create Mem.plain "User" Runs.newcomer Mem.users
    = ([NewSave ViaLists "User" Runs.newcomer], Mem.users ++ [("users", Runs.newcomer)],
       Callback VNull VUndefined)
  /\ save Mem.plain "User" Runs.newcomer Mem.users
    = ([NewSave ViaKeystone "User" Runs.newcomer], Mem.users ++ [("users", Runs.newcomer)],
       Callback VNull VUndefined).
Proof.
  apply (save_like_create Mem.plain "User" Runs.newcomer "users" Mem.users
           (Mem.users ++ [("users", Runs.newcomer)]) VNull); reflexivity.
Defined.

(** ** Further properties: the operations by identifier *)

(** X4: [find] asks the engine once.  An error of the lookup is handed on
    alone, whatever data came with it; without an error, no document gives
    [null] and no error, and a document gives what it holds under [_doc]. *)
Theorem find_completion (self : KeyStoneJS) (model : string) (id : value)
    (M : handle (keystone self)) (d d' : db (keystone self)) (err data : value) :
  let key := registry_key self model in
  lists (keystone self) !! key = Some M ->
  model_findById (keystone self) M id d = ((err, data), d') ->
  events (find self model id d) = [FindById key id]
  /\ final_db (find self model id d) = d'
  /\ (truthy err = true -> outcome (find self model id d) = Callback err VUndefined)
  /\ (truthy err = false -> truthy data = false ->
      outcome (find self model id d) = Callback err VNull)
  /\ (truthy err = false -> truthy data = true ->
      outcome (find self model id d) = Callback err (get "_doc" data)).
Proof.
  intros key HM Hfind. unfold find. fold key. rewrite HM.
  unfold bind, call, ret, events, final_db, outcome. rewrite Hfind.
  unfold fromDatabase.
  destruct (truthy err), (truthy data); simpl; repeat split; intros; congruence.
Qed.

Lemma find_completion_witness :
  events (find Mem.plain "User" (VNum 7) Mem.users) = [FindById "User" (VNum 7)]
  /\ final_db (find Mem.plain "User" (VNum 7) Mem.users) = Mem.users
  /\ (truthy VNull = true ->
      outcome (find Mem.plain "User" (VNum 7) Mem.users) = Callback VNull VUndefined)
  /\ (truthy VNull = false -> truthy VNull = false ->
      outcome (find Mem.plain "User" (VNum 7) Mem.users) = Callback VNull VNull)
  /\ (truthy VNull = false -> truthy VNull = true ->
      outcome (find Mem.plain "User" (VNum 7) Mem.users) = Callback VNull (get "_doc" VNull)).
Proof.
  apply (find_completion Mem.plain "User" (VNum 7) "users" Mem.users Mem.users VNull VNull);
    reflexivity.
Defined.

(** X5: what [find] finds, [exists] confirms: when [find] completes without
    an error and with a record, [exists] on the same store makes the same
    call, leaves the same store and completes with [true]. *)
Theorem found_exists (self : KeyStoneJS) (model : string) (id : value)
    (d d1 : db (keystone self)) (evs : list (event (keystone self))) (err inst : value) :
  find self model id d = (evs, d1, Callback err inst) ->
  truthy err = false ->
  truthy inst = true ->
  exists_ self model id d = (evs, d1, Callback err (VBool true)).
Proof.
  unfold find, exists_.
  destruct (lists (keystone self) !! registry_key self model) as [M|]; [|discriminate].
  unfold bind, call, ret.
  destruct (model_findById (keystone self) M id d) as [[err0 data] d'].
  destruct (truthy err0) eqn:Herr0; simpl.
  - intros [= <- <- <- <-] _ Hinst. discriminate Hinst.
  - intros [= <- <- <- <-] _ Hinst.
    unfold fromDatabase in Hinst.
    destruct (truthy data); [reflexivity|discriminate Hinst].
Qed.

Lemma found_exists_witness :
  exists_ Mem.plain "User" (VNum 1) Mem.users
  = ([FindById "User" (VNum 1)], Mem.users, Callback VNull (VBool true)).
Proof.
  apply (found_exists Mem.plain "User" (VNum 1) Mem.users Mem.users
           [FindById "User" (VNum 1)] VNull Mem.ann); reflexivity.
Defined.

(** X6: for a model in the registry [create], [exists], [find] and
    [destroy] each make one call on the engine and no second one, and the
    store they leave is the one that call leaves; [destroy] hands on the
    error and the result of the removal as the engine gives them. *)
Theorem one_delegated_call (self : KeyStoneJS) (model : string)
    (M : handle (keystone self)) (d : db (keystone self)) :
  let key := registry_key self model in
  lists (keystone self) !! key = Some M ->
  (forall data,
      events (create self model data d) = [NewSave ViaLists key data]
      /\ final_db (create self model data d) = (model_save (keystone self) M data d).2)
  /\ (forall id,
      events (exists_ self model id d) = [FindById key id]
      /\ final_db (exists_ self model id d) = (model_findById (keystone self) M id d).2)
  /\ (forall id,
      events (find self model id d) = [FindById key id]
      /\ final_db (find self model id d) = (model_findById (keystone self) M id d).2)
  /\ (forall id,
      destroy self model id d
      = ([FindByIdRemove key id], (model_remove (keystone self) M id d).2,
         Callback (model_remove (keystone self) M id d).1.1 (model_remove (keystone self) M id d).1.2)).
Proof.
  intros key HM. split; [|split; [|split]].
  - intros data. unfold create. fold key. rewrite HM.
    unfold bind, call, ret, events, final_db.
    destruct (model_save (keystone self) M data d). split; reflexivity.
  - intros id. unfold exists_. fold key. rewrite HM.
    unfold bind, call, ret, events, final_db.
    destruct (model_findById (keystone self) M id d) as [[err data] d']. split; reflexivity.
  - intros id. unfold find. fold key. rewrite HM.
    unfold bind, call, ret, events, final_db.
    destruct (model_findById (keystone self) M id d) as [[err data] d'].
    destruct (truthy err); split; reflexivity.
  - intros id. unfold destroy. fold key. rewrite HM. unfold bind, call, ret.
    destruct (model_remove (keystone self) M id d) as [[err result] d']. reflexivity.
Qed.

Lemma one_delegated_call_witness :
  destroy Mem.plain "User" (VNum 2) Mem.users
  = ([FindByIdRemove "User" (VNum 2)], [("users", Mem.ann); ("users", Mem.cy)],
     Callback VNull (VNum 1)).
Proof.
  destruct (one_delegated_call Mem.plain "User" "users" Mem.users eq_refl)
    as (_ & _ & _ & Hdestroy).
  apply (Hdestroy (VNum 2)).
Defined.

(** X7: when the lookup of [updateOrCreate] reports an error, that error is
    the completion, alone; the lookup is the only call made, so nothing is
    updated and nothing created. *)
Theorem updateOrCreate_lookup_error (self : KeyStoneJS) (F : Framework (keystone self))
    (model : string) (data : value) (M : handle (keystone self))
    (d d1 : db (keystone self)) (err found : value) :
  let idValue := getIdValue F model data in
  let key := registry_key self model in
  nullish idValue = false ->
  lists (keystone self) !! key = Some M ->
  model_findById (keystone self) M idValue d = ((err, found), d1) ->
  truthy err = true ->
  updateOrCreate self F model data d = ([FindById key idValue], d1, Callback err VUndefined).
Proof.
  intros idValue key Hid HM Hfind Herr.
  unfold updateOrCreate. fold idValue. rewrite Hid.
  unfold find. fold key. rewrite HM. unfold bind, call, ret.
  rewrite Hfind. rewrite Herr. cbv beta iota zeta. rewrite Herr. reflexivity.
Qed.

Lemma updateOrCreate_lookup_error_witness :
  updateOrCreate Down.connector Down.framework "User" Runs.known tt
  = ([FindById "User" (VNum 1)], tt, Callback Down.lost VUndefined).
Proof.
  apply (updateOrCreate_lookup_error Down.connector Down.framework "User" Runs.known
           "users" tt tt Down.lost VUndefined); reflexivity.
Defined.

(** X8: when the lookup finds nothing and the save of the new record
    reports an error, [updateOrCreate] completes with that error alone,
    after the lookup and the one save. *)
Theorem updateOrCreate_create_error (self : KeyStoneJS) (F : Framework (keystone self))
    (model : string) (data : value) (M : handle (keystone self))
    (d d1 d2 : db (keystone self)) (err found err' : value) :
  let idValue := getIdValue F model data in
  let key := registry_key self model in
  nullish idValue = false ->
  lists (keystone self) !! key = Some M ->
  model_findById (keystone self) M idValue d = ((err, found), d1) ->
  truthy err = false ->
  truthy (fromDatabase key found) = false ->
  model_save (keystone self) M data d1 = (err', d2) ->
  truthy err' = true ->
  updateOrCreate self F model data d
    = ([FindById key idValue; NewSave ViaLists key data], d2, Callback err' VUndefined).
Proof.
  intros idValue key Hid HM Hfind Herr Hinst Hsave Herr'.
  unfold updateOrCreate. fold idValue. rewrite Hid.
  unfold find, create. fold key. rewrite HM. unfold bind, call, ret.
  rewrite Hfind. rewrite Herr. cbv beta iota zeta. rewrite Herr, Hinst.
  rewrite Hsave. cbv beta iota zeta. rewrite Herr'. reflexivity.
Qed.

Lemma updateOrCreate_create_error_witness :
  updateOrCreate ReadOnly.connector ReadOnly.framework "User" Runs.newcomer Mem.users
  = ([FindById "User" (VNum 9); NewSave ViaLists "User" Runs.newcomer], Mem.users,
     Callback ReadOnly.refused VUndefined).
Proof.
  apply (updateOrCreate_create_error ReadOnly.connector ReadOnly.framework "User"
           Runs.newcomer "users" Mem.users Mem.users Mem.users VNull VNull ReadOnly.refused);
    reflexivity.
Defined.

(** X9: the calls of [updateOrCreate] are, in every run, one of five
    sequences: none, the save alone, the lookup alone, the lookup then the
    update, the lookup then the save.  So it never both updates and creates,
    never looks up twice, and never saves before it has looked up an
    identifier it was given. *)
Theorem updateOrCreate_calls (self : KeyStoneJS) (F : Framework (keystone self))
    (model : string) (data : value) (d : db (keystone self)) :
  let key := registry_key self model in
  let idValue := getIdValue F model data in
  let calls := events (updateOrCreate self F model data d) in
  calls = []
  \/ calls = [NewSave ViaLists key data]
  \/ calls = [FindById key idValue]
  \/ calls = [FindById key idValue; UpdateAttributes model idValue data]
  \/ calls = [FindById key idValue; NewSave ViaLists key data].
Proof.
  intros key idValue calls. subst calls.
  unfold updateOrCreate. fold idValue.
  destruct (nullish idValue).
  { unfold create. fold key.
    destruct (lists (keystone self) !! key) as [M|]; [|left; reflexivity].
    unfold bind, call, ret, events.
    destruct (model_save (keystone self) M data d). right. left. reflexivity. }
  unfold find, create. fold key.
  destruct (lists (keystone self) !! key) as [M|]; [|left; reflexivity].
  unfold bind, call, ret, note, emit, events.
  destruct (model_findById (keystone self) M idValue d) as [[err found] d1].
  destruct (truthy err) eqn:Herr; cbv beta iota zeta.
  { rewrite Herr. right. right. left. reflexivity. }
  rewrite Herr.
  destruct (truthy (fromDatabase key found)).
  { destruct (updateAttributes F model idValue data d1) as [c d2].
    right. right. right. left. reflexivity. }
  destruct (model_save (keystone self) M data d1) as [err' d2]. cbv beta iota zeta.
  destruct (truthy err'); right; right; right; right; reflexivity.
Qed.

(** X16: an identifier is looked up unless it is [null] or [undefined]:
    with any other identifier, the falsy ones [0] and [''] too, the first
    call of [updateOrCreate] for a model in the registry is the lookup by
    that identifier, under the key of the model. *)
Theorem updateOrCreate_looks_up_first (self : KeyStoneJS) (F : Framework (keystone self))
    (model : string) (data : value) (M : handle (keystone self)) (d : db (keystone self)) :
  let idValue := getIdValue F model data in
  let key := registry_key self model in
  nullish idValue = false ->
  lists (keystone self) !! key = Some M ->
  exists later, events (updateOrCreate self F model data d) = FindById key idValue :: later.
Proof.
  intros idValue key Hid HM.
  unfold updateOrCreate. fold idValue. rewrite Hid.
  unfold find, create. fold key. rewrite HM.
  unfold bind, call, ret, note, emit, events.
  destruct (model_findById (keystone self) M idValue d) as [[err found] d1].
  destruct (truthy err) eqn:Herr; cbv beta iota zeta; rewrite Herr.
  { eexists. reflexivity. }
  destruct (truthy (fromDatabase key found)).
  { destruct (updateAttributes F model idValue data d1) as [c d2]. eexists. reflexivity. }
  destruct (model_save (keystone self) M data d1) as [err' d2]. cbv beta iota zeta.
  destruct (truthy err'); eexists; reflexivity.
Qed.

Lemma updateOrCreate_looks_up_first_witness :
  exists later,
    events (updateOrCreate Mem.plain Mem.framework "User" (VObj [("id", VNum 0)]) Mem.users)
    = FindById "User" (VNum 0) :: later.
Proof.
  apply (updateOrCreate_looks_up_first Mem.plain Mem.framework "User"
           (VObj [("id", VNum 0)]) "users" Mem.users); reflexivity.
Defined.

(** ** Further properties: [all] *)

Section AllCalls.

Context (self : KeyStoneJS).

Local Abbreviation E := (keystone self).

(** Whatever the sub-filters, [_.each] calls nothing but commands of the
    whitelist. *)
Lemma each_applications (subFilters : list value) (st : chain_state E) :
  Forall is_application (each self subFilters st).1.1.2.
Proof.
  revert st. induction subFilters as [|s rest IH]; intros st; simpl; [constructor|].
  destruct (each_subFilter self st s) as [[[s' evs] st'] raised] eqn:Hstep.
  assert (Hevs : Forall is_application evs).
  { unfold each_subFilter in Hstep.
    destruct (truthy (cur_err st)); simpl in Hstep.
    - injection Hstep as <- <- <- <-. constructor.
    - destruct (shift s) as [ex|[cmd items]].
      + injection Hstep as <- <- <- <-. constructor.
      + destruct (contains filterWhitelist cmd) as [c|] eqn:Hcmd.
        * apply contains_Some_inv in Hcmd as [_ Hc].
          assert (Happ : is_application (Apply (cur_query st) c items))
            by (exists (cur_query st), c, items; split; [reflexivity|exact Hc]).
          destruct (query_apply E c items (cur_query st));
            injection Hstep as <- <- <- <-; apply Forall_cons_2; [exact Happ|constructor|exact Happ|constructor].
        * injection Hstep as <- <- <- <-. constructor. }
  destruct raised as [ex|]; [exact Hevs|].
  specialize (IH st').
  destruct (each self rest st') as [[[rest' evs'] st''] raised']. simpl in *.
  apply Forall_app. split; assumption.
Qed.

(** Each sub-filter leaves [_.each] as it came or without its first
    element, and in its place. *)
Lemma each_kept_or_shifted (subFilters : list value) (st : chain_state E) :
  Forall2 kept_or_shifted subFilters (each self subFilters st).1.1.1.
Proof.
  assert (Hsame : forall l : list value, Forall2 kept_or_shifted l l).
  { induction l; constructor; [left; reflexivity|assumption]. }
  revert st. induction subFilters as [|s rest IH]; intros st; simpl; [constructor|].
  destruct (each_subFilter self st s) as [[[s' evs] st'] raised] eqn:Hstep.
  assert (Hs : kept_or_shifted s s').
  { unfold each_subFilter in Hstep.
    destruct (truthy (cur_err st)); simpl in Hstep.
    - injection Hstep as <- <- <- <-. left. reflexivity.
    - destruct (shift s) as [ex|[cmd items]] eqn:Hshift.
      + injection Hstep as <- <- <- <-. left. reflexivity.
      + assert (Hshifted : kept_or_shifted s (VArr items)).
        { destruct s; try discriminate Hshift.
          destruct items0 as [|x xs]; injection Hshift as <- <-.
          - left. reflexivity.
          - right. exists x, xs. split; reflexivity. }
        destruct (contains filterWhitelist cmd) as [c|].
        * destruct (query_apply E c items (cur_query st));
            injection Hstep as <- <- <- <-; exact Hshifted.
        * injection Hstep as <- <- <- <-. exact Hshifted. }
  destruct raised as [ex|]; simpl.
  - constructor; [exact Hs|apply Hsame].
  - specialize (IH st').
    destruct (each self rest st') as [[[rest' evs'] st''] raised']. simpl in *.
    constructor; assumption.
Qed.

End AllCalls.

(** X10: whatever the filter holds, a command that [all] applies to the
    query handle is one of the whitelist. *)
Theorem all_applies_only_whitelisted (self : KeyStoneJS) (model : string)
    (filter : filter_arg) (d : db (keystone self))
    (q : query (keystone self)) (cmd : string) (args : list value) :
  Apply q cmd args ∈ events (all self model filter d) -> cmd ∈ filterWhitelist.
Proof.
  destruct (lists (keystone self) !! registry_key self model) as [M|] eqn:HM.
  2:{ unfold all. rewrite HM. intros Hin. inversion Hin. }
  assert (Hbase : filter = FilterNull \/ filter = FilterUndefined \/ filter = FilterArr []
                  \/ exists s rest, filter = FilterArr (s :: rest)).
  { destruct filter as [| |[|s rest]]; eauto 6. }
  destruct Hbase as [H|[H|[H|(s & rest & ->)]]].
  1-3: rewrite (all_base self model M) by auto;
    destruct (query_exec (keystone self) (model_find (keystone self) M) d) as [[err data] d'];
    unfold events; simpl; intros Hin;
    apply elem_of_cons in Hin as [Hin|Hin]; [discriminate Hin|];
    apply list_elem_of_singleton in Hin; discriminate Hin.
  rewrite (all_chaining self model M) by (auto; discriminate).
  pose proof (each_applications self (s :: rest)
                (ChainState (model_find (keystone self) M) VUndefined)) as Happs.
  destruct (each self (s :: rest) (ChainState (model_find (keystone self) M) VUndefined))
    as [[[subFilters' evs] st] raised].
  simpl in Happs. cbv zeta.
  assert (Hevs : Apply q cmd args ∈ evs -> cmd ∈ filterWhitelist).
  { intros Hin. rewrite Forall_forall in Happs.
    destruct (Happs _ Hin) as (q' & cmd' & args' & Heq & Hcmd).
    injection Heq as _ -> _. exact Hcmd. }
  destruct (truthy (match raised with Some ex => error_value ex | None => cur_err st end)).
  - unfold events. simpl. intros Hin.
    apply elem_of_cons in Hin as [Hin|Hin]; [discriminate Hin|exact (Hevs Hin)].
  - destruct (query_exec (keystone self) (cur_query st) d) as [[err data] d'].
    unfold events. simpl. intros Hin.
    apply elem_of_cons in Hin as [Hin|Hin]; [discriminate Hin|].
    apply elem_of_app in Hin as [Hin|Hin]; [exact (Hevs Hin)|].
    apply list_elem_of_singleton in Hin. discriminate Hin.
Qed.

Lemma all_applies_only_whitelisted_witness :
  Apply Runs.after_where "limit" [VNum 5]
    ∈ events (all Mem.plain "User" (FilterArr [Runs.where_a_1; Runs.limit_5]) Mem.users)
  /\ "limit" ∈ filterWhitelist.
Proof.
  assert (Hin : Apply Runs.after_where "limit" [VNum 5]
            ∈ events (all Mem.plain "User" (FilterArr [Runs.where_a_1; Runs.limit_5]) Mem.users))
    by (do 2 apply list_elem_of_further; apply list_elem_of_here).
  split; [exact Hin|].
  exact (all_applies_only_whitelisted Mem.plain "User"
           (FilterArr [Runs.where_a_1; Runs.limit_5]) Mem.users
           Runs.after_where "limit" [VNum 5] Hin).
Defined.

(** X11: for a model in the registry the calls of [all] are the making of
    the base query, then applications of whitelisted commands, then at most
    one execution, which comes last.  The store is changed by that execution
    alone: a call that does not execute leaves it as it was. *)
Theorem all_calls_in_order (self : KeyStoneJS) (model : string)
    (M : handle (keystone self)) (filter : filter_arg) (d : db (keystone self)) :
  let key := registry_key self model in
  let r := all self model filter d in
  lists (keystone self) !! key = Some M ->
  exists applied,
    Forall is_application applied
    /\ ((events r = Find key :: applied /\ final_db r = d)
        \/ (exists q, events r = Find key :: applied ++ [Exec q]
                      /\ final_db r = (query_exec (keystone self) q d).2)).
Proof.
  intros key r HM. subst r.
  assert (Hbase : filter = FilterNull \/ filter = FilterUndefined \/ filter = FilterArr []
                  \/ exists s rest, filter = FilterArr (s :: rest)).
  { destruct filter as [| |[|s rest]]; eauto 6. }
  destruct Hbase as [H|[H|[H|(s & rest & ->)]]].
  1-3: rewrite (all_base self model M) by auto; fold key;
    exists []; split; [constructor|]; right; exists (model_find (keystone self) M);
    destruct (query_exec (keystone self) (model_find (keystone self) M) d) as [[err data] d'];
    split; reflexivity.
  rewrite (all_chaining self model M) by (auto; discriminate). fold key.
  pose proof (each_applications self (s :: rest)
                (ChainState (model_find (keystone self) M) VUndefined)) as Happs.
  destruct (each self (s :: rest) (ChainState (model_find (keystone self) M) VUndefined))
    as [[[subFilters' evs] st] raised].
  simpl in Happs. cbv zeta. exists evs. split; [exact Happs|].
  destruct (truthy (match raised with Some ex => error_value ex | None => cur_err st end)).
  - left. split; reflexivity.
  - right. exists (cur_query st).
    destruct (query_exec (keystone self) (cur_query st) d) as [[err data] d'].
    split; reflexivity.
Qed.

Lemma all_calls_in_order_witness :
  exists applied,
    Forall is_application applied
    /\ ((events (all Mem.plain "User" Runs.where_drop_limit Mem.users) = Find "User" :: applied
         /\ final_db (all Mem.plain "User" Runs.where_drop_limit Mem.users) = Mem.users)
        \/ (exists q,
              events (all Mem.plain "User" Runs.where_drop_limit Mem.users)
                = Find "User" :: applied ++ [Exec q]
              /\ final_db (all Mem.plain "User" Runs.where_drop_limit Mem.users)
                 = (query_exec Mem.engine q Mem.users).2)).
Proof.
  apply (all_calls_in_order Mem.plain "User" "users" Runs.where_drop_limit Mem.users).
  reflexivity.
Defined.

(** X12: [all] hands its callback an error or a list of records, never
    both and never part of a list: in every run it raises (the model is not
    in the registry), or completes with an error and no result, or completes
    with [null] for the error and an array. *)
Theorem all_error_or_records (self : KeyStoneJS) (model : string)
    (filter : filter_arg) (d : db (keystone self)) :
  let c := (outcome (all self model filter d)).1 in
  (exists ex, c = Throws ex)
  \/ (exists err, truthy err = true /\ c = Callback err VUndefined)
  \/ (exists records, c = Callback VNull (VArr records)).
Proof.
  intros c. subst c.
  destruct (lists (keystone self) !! registry_key self model) as [M|] eqn:HM.
  2:{ left. unfold all. rewrite HM. eexists. reflexivity. }
  right.
  assert (Hcb : forall err data,
    (exists err0, truthy err0 = true
        /\ exec_callback (registry_key self model) err data = Callback err0 VUndefined)
    \/ (exists records,
        exec_callback (registry_key self model) err data = Callback VNull (VArr records))).
  { intros err data. unfold exec_callback. destruct (truthy err) eqn:Herr.
    - left. exists err. split; [exact Herr|reflexivity].
    - right. eexists. reflexivity. }
  assert (Hbase : filter = FilterNull \/ filter = FilterUndefined \/ filter = FilterArr []
                  \/ exists s rest, filter = FilterArr (s :: rest)).
  { destruct filter as [| |[|s rest]]; eauto 6. }
  destruct Hbase as [H|[H|[H|(s & rest & ->)]]].
  1-3: rewrite (all_base self model M) by auto;
    destruct (query_exec (keystone self) (model_find (keystone self) M) d) as [[err data] d'];
    exact (Hcb err data).
  rewrite (all_chaining self model M) by (auto; discriminate).
  destruct (each self (s :: rest) (ChainState (model_find (keystone self) M) VUndefined))
    as [[[subFilters' evs] st] raised].
  cbv zeta.
  destruct (truthy (match raised with Some ex => error_value ex | None => cur_err st end))
    eqn:Herr.
  - left. eexists. split; [exact Herr|reflexivity].
  - destruct (query_exec (keystone self) (cur_query st) d) as [[err data] d'].
    exact (Hcb err data).
Qed.

(** X13: [all] never takes a sub-filter out of the caller's descriptor, adds
    one or moves one: after the call each sub-filter is in its place, as it
    was or without its first element; a [null] or [undefined] filter is
    handed back as it is. *)
Theorem all_keeps_or_shifts (self : KeyStoneJS) (model : string) (d : db (keystone self)) :
  (forall subFilters, exists subFilters',
      (outcome (all self model (FilterArr subFilters) d)).2 = FilterArr subFilters'
      /\ Forall2 kept_or_shifted subFilters subFilters')
  /\ (outcome (all self model FilterNull d)).2 = FilterNull
  /\ (outcome (all self model FilterUndefined d)).2 = FilterUndefined.
Proof.
  assert (Hsame : forall l : list value, Forall2 kept_or_shifted l l).
  { induction l; constructor; [left; reflexivity|assumption]. }
  destruct (lists (keystone self) !! registry_key self model) as [M|] eqn:HM.
  2:{ unfold all. rewrite HM. repeat split. intros subFilters. exists subFilters.
      split; [reflexivity|apply Hsame]. }
  split; [|split].
  - intros [|s rest].
    + exists []. rewrite (all_base self model M) by auto.
      destruct (query_exec (keystone self) (model_find (keystone self) M) d) as [[err data] d'].
      split; [reflexivity|constructor].
    + rewrite (all_chaining self model M) by (auto; discriminate).
      pose proof (each_kept_or_shifted self (s :: rest)
                    (ChainState (model_find (keystone self) M) VUndefined)) as Hkept.
      destruct (each self (s :: rest) (ChainState (model_find (keystone self) M) VUndefined))
        as [[[subFilters' evs] st] raised].
      simpl in Hkept. cbv zeta. exists subFilters'.
      destruct (truthy (match raised with Some ex => error_value ex | None => cur_err st end)).
      * split; [reflexivity|exact Hkept].
      * destruct (query_exec (keystone self) (cur_query st) d) as [[err data] d'].
        split; [reflexivity|exact Hkept].
  - rewrite (all_base self model M) by auto.
    destruct (query_exec (keystone self) (model_find (keystone self) M) d) as [[err data] d'].
    reflexivity.
  - rewrite (all_base self model M) by auto.
    destruct (query_exec (keystone self) (model_find (keystone self) M) d) as [[err data] d'].
    reflexivity.
Qed.

(** X14: a sub-filter that is not an array, reached after sub-filters that
    chained, ends [all] with a [TypeError] for the error: the [shift] on it
    raises inside the [try].  Nothing is applied for it, nothing is
    executed, and it and the sub-filters after it stay as they were. *)
Theorem all_subFilter_not_array (self : KeyStoneJS) (model : string)
    (M : handle (keystone self)) (d : db (keystone self))
    (steps : list step) (bad : value) (rest : list value) (q : query (keystone self)) :
  let key := registry_key self model in
  let base := model_find (keystone self) M in
  lists (keystone self) !! key = Some M ->
  Forall allowed steps ->
  chained steps base = inr q ->
  (forall items, bad <> VArr items) ->
  exists message,
    all self model (FilterArr (List.map subFilter_of steps ++ bad :: rest)) d
    = (Find key :: applications steps base, d,
       (Callback (VError "TypeError" message) VUndefined,
        FilterArr (List.map shifted steps ++ bad :: rest))).
Proof.
  intros key base HM Hall Hchain Hbad.
  assert (Hshift : exists message, shift bad = inl (TypeError message)).
  { destruct bad; try (eexists; reflexivity). exfalso. exact (Hbad items eq_refl). }
  destruct Hshift as [message Hshift]. exists message.
  rewrite (all_chaining self model M) by (auto; destruct steps; discriminate).
  fold key base.
  rewrite (each_allowed_steps self steps (bad :: rest) base q Hall Hchain).
  cbn [each]. unfold each_subFilter. cbn [cur_err cur_query].
  change (truthy VUndefined) with false. cbn [negb]. cbv beta iota zeta.
  rewrite Hshift. cbv beta iota zeta.
  change (truthy (error_value (TypeError message))) with true. cbv beta iota zeta.
  rewrite (app_nil_r (applications steps base)). reflexivity.
Qed.

Lemma all_subFilter_not_array_witness :
  exists message,
    all Mem.plain "User" (FilterArr [Runs.where_a_1; VStr "limit"; Runs.limit_5]) Mem.users
    = ([Find "User"; Apply Runs.base "where" [VObj [("a", VNum 1)]]], Mem.users,
       (Callback (VError "TypeError" message) VUndefined,
        FilterArr [VArr [VObj [("a", VNum 1)]]; VStr "limit"; Runs.limit_5])).
Proof.
  apply (all_subFilter_not_array Mem.plain "User" "users" Mem.users
           [("where", [VObj [("a", VNum 1)]])] (VStr "limit") [Runs.limit_5] Runs.after_where).
  - reflexivity.
  - constructor; [exact allowed_where|]. constructor.
  - reflexivity.
  - intros items Heq. discriminate Heq.
Defined.

(** ** Further properties: the model prefix *)

(** X15: with a prefix [P] configured (a literal pattern), the key of
    [P+X] is [X] for every [X]: one leading occurrence of the prefix is cut
    and no more, so the key of [P+P+X] is [P+X]; a name that does not start
    with [P] is its own key, and no key is longer than its name. *)
Theorem prefix_cut_once (self : KeyStoneJS) (P : string) :
  modelPrefix self = Some P ->
  regex_literal P = true ->
  (forall X, registry_key self (P +:+ X) = X)
  /\ (forall X, registry_key self (P +:+ P +:+ X) = P +:+ X)
  /\ (forall name, String.prefix P name = false -> registry_key self name = name)
  /\ (forall name, String.length (registry_key self name) <= String.length name)%nat.
Proof.
  intros Hcfg _.
  assert (Hcut : forall X, registry_key self (P +:+ X) = X).
  { intros X. unfold registry_key. rewrite Hcfg.
    destruct P as [|c p]; [reflexivity|].
    change (truthy (VStr (String c p))) with true. cbv iota.
    apply removeModelPrefix_append. }
  split; [exact Hcut|]. split; [intros X; apply Hcut|]. split.
  - intros name Hname. unfold registry_key. rewrite Hcfg.
    destruct (truthy (VStr P)); [|reflexivity].
    apply removeModelPrefix_other. exact Hname.
  - intros name. unfold registry_key. rewrite Hcfg.
    destruct (truthy (VStr P)); [|lia].
    unfold removeModelPrefix. destruct (String.prefix P name); [|lia].
    generalize (String.length P). intros n. revert name.
    induction n as [|n IH]; intros name; simpl; [lia|].
    destruct name as [|c rest]; simpl; [lia|].
    specialize (IH rest). lia.
Qed.

Lemma prefix_cut_once_witness :
  registry_key Mem.prefixed ("ks" +:+ "ks" +:+ "User") = "ks" +:+ "User"
  /\ registry_key Mem.prefixed "User" = "User".
Proof.
  destruct (prefix_cut_once Mem.prefixed "ks" eq_refl eq_refl) as (_ & Htwice & Hother & _).
  split; [apply Htwice|apply Hother; reflexivity].
Defined.
